(** * ASEG-GDF format utilities: a shallow embedding of
      [geophys_utils/netcdf_converter/aseg_gdf_utils.py]

    The development follows the Python module top to bottom:
    - Python values and exceptions, as a small error monad;
    - a backtracking matcher for the fragment of [re] the module uses;
    - the module tables [SIG_FIGS], [DTYPE_REDUCTION_LISTS] and
      [ASEG_DTYPE_CODE_MAPPING];
    - [decode_aseg_gdf_format], [aseg_gdf_format2dtype],
      [variable2aseg_gdf_format] and [fix_field_precision];
    - the head of [main] in [grav2netcdf_converter.py]: the command line
      and the survey ids;
    - the properties of these functions. *)

From Stdlib Require Import ZArith List Bool Lia String Ascii DecimalString.
From Stdlib Require Import SpecFloat.
From Stdlib Require DecimalPos.
Import ListNotations.

Local Open Scope string_scope.
Local Open Scope Z_scope.

(** ** Exceptions and results *)

(** The exception classes the module raises or lets escape. [Unmodelled] is
    not one of Python's: it marks the places where what numpy or Python does
    is left to the platform or lies outside this model (a float converted to
    an integer it does not fit, the shortest decimal text of a float that is
    not a whole number, arithmetic on text); evaluation stops there and no
    [except] clause catches it. *)
Inductive exn : Type :=
| BaseException (msg : string)
| AssertionError (msg : string)
| KeyError (key : string)
| ValueError (msg : string)
| OverflowError (msg : string)
| AttributeError (msg : string)
| TypeError (msg : string)
| UnboundLocalError (name : string)
| IndexError (msg : string)
| Unmodelled (what : string).

Inductive result (A : Type) : Type :=
| Ok (a : A)
| Raise (e : exn).

Arguments Ok {A} a.
Arguments Raise {A} e.

Definition bind {A B : Type} (m : result A) (k : A -> result B) : result B :=
  match m with
  | Ok a => k a
  | Raise e => Raise e
  end.

Notation "x <- m ;; k" := (bind m (fun x => k))
  (at level 61, m at next level, right associativity).
Notation "' p <- m ;; k" := (bind m (fun x => let p := x in k))
  (at level 61, p pattern, m at next level, right associativity).

(** [assert cond, msg] *)
Definition assert (cond : bool) (msg : string) : result unit :=
  if cond then Ok tt else Raise (AssertionError msg).

Definition is_ok {A : Type} (m : result A) : bool :=
  match m with Ok _ => true | Raise _ => false end.

(** ** Characters and strings

    A character is a code point below 256 and a text a sequence of them;
    Python text with a code point of 256 or more is outside the model. On
    these code points the class [\d] is the ten ASCII digits, the class [\w]
    adds the letters and numbers of Latin-1 to the ASCII letters, digits and
    underscore, and [str.upper] gives two characters at one code point and
    leaves the range at two others. *)

(** The class [\d]: of the decimal digits, the ASCII ones are the only ones
    below 256. *)
Definition is_digit (c : ascii) : bool :=
  let n := nat_of_ascii c in (48 <=? n)%nat && (n <=? 57)%nat.

(** The small and the capital letters of ASCII. *)
Definition is_lower (c : ascii) : bool :=
  let n := nat_of_ascii c in (97 <=? n)%nat && (n <=? 122)%nat.

Definition is_upper (c : ascii) : bool :=
  let n := nat_of_ascii c in (65 <=? n)%nat && (n <=? 90)%nat.

Definition is_letter (c : ascii) : bool := is_lower c || is_upper c.

(** The letters and numbers above ASCII, by code point: the ordinal
    indicators (170, 186), the superscripts (178, 179, 185), the micro sign
    (181), the fractions (188 to 190) and the letters (192 to 214, 216 to
    246, 248 to 255). *)
Definition is_latin1_word (c : ascii) : bool :=
  let n := nat_of_ascii c in
  ((n =? 170) || (178 <=? n) && (n <=? 179) || (n =? 181)
   || (185 <=? n) && (n <=? 186) || (188 <=? n) && (n <=? 190)
   || (192 <=? n) && (n <=? 214) || (216 <=? n) && (n <=? 246)
   || (248 <=? n))%nat.

(** The class [\w]: what is alphanumeric, and the underscore. *)
Definition is_word (c : ascii) : bool :=
  is_letter c || is_digit c || Ascii.eqb c "_"%char || is_latin1_word c.

(** The upper case of an ASCII character. *)
Definition upper_char (c : ascii) : ascii :=
  if is_lower c then ascii_of_nat (nat_of_ascii c - 32) else c.

(** [str.upper()] of one character. The small letters of Latin-1 (224 to
    254, the division sign 247 apart) stand 32 above their capitals, as the
    ASCII ones do; the sharp s (223) becomes [SS]; the capitals of the micro
    sign (181) and of y with diaeresis (255) are code points 924 and 376,
    which no text of the model holds. *)
Definition upper_code (c : ascii) : result string :=
  let n := nat_of_ascii c in
  if is_lower c then Ok (String (upper_char c) "")
  else if (n =? 223)%nat then Ok "SS"
  else if ((224 <=? n) && (n <=? 254) && negb (n =? 247))%nat
  then Ok (String (ascii_of_nat (n - 32)) "")
  else if ((n =? 181) || (n =? 255))%nat
  then Raise (Unmodelled "upper case beyond code point 255")
  else Ok (String c "").

(** [str.upper()] *)
Fixpoint upper (s : string) : result string :=
  match s with
  | EmptyString => Ok EmptyString
  | String c s' => u <- upper_code c ;; us <- upper s' ;; Ok (u ++ us)
  end.

(** [str.startswith(prefix)] *)
Definition startswith (s pre : string) : bool := String.prefix pre s.

Fixpoint all_chars (p : ascii -> bool) (s : string) : bool :=
  match s with
  | EmptyString => true
  | String c s' => p c && all_chars p s'
  end.

(** The longest prefix of [s] in the class [p], and what follows it. *)
Fixpoint span_chars (p : ascii -> bool) (s : string) : string * string :=
  match s with
  | EmptyString => (EmptyString, EmptyString)
  | String c s' =>
      if p c then let (run, rest) := span_chars p s' in (String c run, rest)
      else (EmptyString, s)
  end.

(** [str(n)] and ['{}'.format(n)] for an integer. *)
Definition str_of_Z (n : Z) : string := NilZero.string_of_int (Z.to_int n).

Definition digit_val (c : ascii) : Z := Z.of_nat (nat_of_ascii c - 48).

Fixpoint int_digits_acc (s : string) (acc : Z) : Z :=
  match s with
  | EmptyString => acc
  | String c s' => int_digits_acc s' (10 * acc + digit_val c)
  end.

(** [int(s)] on the text of a capture group: a non-empty run of decimal
    digits converts, anything else is a [ValueError]. *)
Definition int_of_str (s : string) : result Z :=
  match s with
  | EmptyString => Raise (ValueError "invalid literal for int()")
  | _ => if all_chars is_digit s then Ok (int_digits_acc s 0)
         else Raise (ValueError "invalid literal for int()")
  end.

(** [s[:len(s) - len(rest)]]: the text consumed between [s] and its suffix
    [rest]. *)
Definition consumed (s rest : string) : string :=
  substring 0 (String.length s - String.length rest) s.

(** ** Regular expressions

    The fragment of Python's [re] the module needs, matched the way [re]
    does it: leftmost, by backtracking, greedy quantifiers trying the longest
    repetition first and lazy ones the shortest, a capture group keeping the
    text of its last successful iteration. *)

Inductive regex : Type :=
| Eps                              (* the empty expression *)
| Lit (c : ascii)                  (* a literal character *)
| Class (p : ascii -> bool)        (* a character class *)
| Seq (r1 r2 : regex)              (* r1r2 *)
| Star (r : regex)                 (* r*   *)
| LazyStar (r : regex)             (* r*?  *)
| Upto (n : nat) (r : regex)       (* r{0,n} *)
| Group (i : nat) (r : regex).     (* (r), the i-th group *)

(** r+ *)
Definition Plus (r : regex) : regex := Seq r (Star r).

(** The text of a string as a sequence of literals. *)
Fixpoint Lits (s : string) : regex :=
  match s with
  | EmptyString => Eps
  | String c s' => Seq (Lit c) (Lits s')
  end.

(** Captures: the most recent binding of a group comes first. *)
Definition captures : Type := list (nat * string).

Fixpoint group (g : captures) (i : nat) : option string :=
  match g with
  | [] => None
  | (j, s) :: g' => if Nat.eqb i j then Some s else group g' i
  end.

Section Matcher.

Context {R : Type}.

Definition cont : Type := string -> captures -> option R.

Definition or_else (a : option R) (b : option R) : option R :=
  match a with
  | Some x => Some x
  | None => b
  end.

(** The three repetitions, over the matcher [step] of the repeated
    expression. A repetition goes round again only when the last round
    consumed some text, so [fuel], the length of the text, is never
    exhausted. *)
Fixpoint star_loop (step : string -> captures -> cont -> option R)
  (k : cont) (fuel : nat) (s : string) (g : captures) : option R :=
  match fuel with
  | O => k s g
  | S fuel' =>
      or_else
        (step s g
           (fun s1 g1 =>
              if (String.length s1 <? String.length s)%nat
              then star_loop step k fuel' s1 g1 else None))
        (k s g)
  end.

Fixpoint lazy_loop (step : string -> captures -> cont -> option R)
  (k : cont) (fuel : nat) (s : string) (g : captures) : option R :=
  match fuel with
  | O => k s g
  | S fuel' =>
      or_else
        (k s g)
        (step s g
           (fun s1 g1 =>
              if (String.length s1 <? String.length s)%nat
              then lazy_loop step k fuel' s1 g1 else None))
  end.

Fixpoint upto_loop (step : string -> captures -> cont -> option R)
  (k : cont) (n : nat) (s : string) (g : captures) : option R :=
  match n with
  | O => k s g
  | S n' =>
      or_else (step s g (fun s1 g1 => upto_loop step k n' s1 g1)) (k s g)
  end.

(** [run r s g k]: match [r] at the head of [s], then continue with [k] on
    what is left; [None] makes the matcher backtrack. *)
Fixpoint run (r : regex) (s : string) (g : captures) (k : cont) {struct r}
  : option R :=
  match r with
  | Eps => k s g
  | Lit c =>
      match s with
      | String a s' => if Ascii.eqb a c then k s' g else None
      | EmptyString => None
      end
  | Class p =>
      match s with
      | String a s' => if p a then k s' g else None
      | EmptyString => None
      end
  | Seq r1 r2 => run r1 s g (fun s1 g1 => run r2 s1 g1 k)
  | Group i r1 =>
      run r1 s g (fun s1 g1 => k s1 ((i, consumed s s1) :: g1))
  | Star r1 => star_loop (run r1) k (String.length s) s g
  | LazyStar r1 => lazy_loop (run r1) k (String.length s) s g
  | Upto n r1 => upto_loop (run r1) k n s g
  end.

End Matcher.

Arguments run {R} r s g k : simpl never.

(** [re.match(r, s)]: anchored at the start of [s], free at its end. *)
Definition re_match (r : regex) (s : string) : option captures :=
  run r s [] (fun _ g => Some g).

(** [re.search(r, s)]: the first position of [s] where [r] matches. *)
Fixpoint re_search (r : regex) (s : string) : option captures :=
  match re_match r s with
  | Some g => Some g
  | None =>
      match s with
      | EmptyString => None
      | String _ s' => re_search r s'
      end
  end.

(** ** Python values the module hands back *)

(** [columns] is the text of a group or the integer 1. *)
Inductive pyval : Type :=
| PyInt (n : Z)
| PyStr (s : string).

(** ** decode_aseg_gdf_format *)

(** ['(\d+)*(\w)(\d+)\.*(\d+)*'] *)
Definition format_pattern : regex :=
  Seq (Star (Group 1 (Plus (Class is_digit))))
 (Seq (Group 2 (Class is_word))
 (Seq (Group 3 (Plus (Class is_digit)))
 (Seq (Star (Lit "."))
      (Star (Group 4 (Plus (Class is_digit))))))).

(** [match.group(i)] for a group that took part in the match; a group that
    did not is [None], whose methods do not exist. *)
Definition group_text (g : captures) (i : nat) : result string :=
  match group g i with
  | Some s => Ok s
  | None => Raise (AttributeError "'NoneType' object has no attribute")
  end.

Definition decode_aseg_gdf_format (aseg_gdf_format : string)
  : result (pyval * string * Z * Z) :=
  if String.eqb aseg_gdf_format "" then
    Raise (BaseException "No ASEG-GDF format string to decode")
  else
    match re_match format_pattern aseg_gdf_format with
    | None =>
        Raise (BaseException
                 ("Invalid ASEG-GDF format string " ++ aseg_gdf_format))
    | Some m =>
        let columns :=
          match group m 1 with
          | Some (String c s) => PyStr (String c s)
          | _ => PyInt 1
          end in
        g2 <- group_text m 2 ;;
        aseg_dtype_code <- upper g2 ;;
        g3 <- group_text m 3 ;;
        integer_digits <- int_of_str g3 ;;
        fractional_digits <-
          match group m 4 with
          | Some g4 => int_of_str g4
          | None => Ok 0
          end ;;
        Ok (columns, aseg_dtype_code, integer_digits, fractional_digits)
    end.

(** ** Module tables *)

(** [SIG_FIGS], an [OrderedDict]: the order of the entries is the order in
    which [items()] yields them. *)
Definition SIG_FIGS : list (string * Z) :=
  [ ("int8", 2);
    ("int16", 4);
    ("int32", 10);
    ("int64", 19);
    ("float32", 7);
    ("float64", 20) ].

Definition DTYPE_REDUCTION_LISTS : list (list string) :=
  [ ["int64"; "int32"; "int16"; "int8"];
    ["float64"; "float32"] ].

Definition ASEG_DTYPE_CODE_MAPPING : list (string * string) :=
  [ ("int16", "I");
    ("int32", "I");
    ("int64", "I");
    ("float32", "F");
    ("float64", "D");
    ("str", "A") ].

(** [d.get(key)] *)
Fixpoint dict_get {V : Type} (d : list (string * V)) (key : string)
  : option V :=
  match d with
  | [] => None
  | (k, v) :: d' => if String.eqb k key then Some v else dict_get d' key
  end.

(** [d[key]] *)
Definition dict_item {V : Type} (d : list (string * V)) (key : string)
  : result V :=
  match dict_get d key with
  | Some v => Ok v
  | None => Raise (KeyError key)
  end.

(** [l.index(x)] *)
Fixpoint list_index (l : list string) (x : string) : result nat :=
  match l with
  | [] => Raise (ValueError (x ++ " is not in list"))
  | y :: l' =>
      if String.eqb y x then Ok O
      else i <- list_index l' x ;; Ok (S i)
  end.

(** [x in l] *)
Definition str_in (x : string) (l : list string) : bool :=
  existsb (String.eqb x) l.

(** ** aseg_gdf_format2dtype *)

(** What the local [dtype] can hold: [None], a key of [SIG_FIGS], or the
    class [str]. *)
Inductive dtype_value : Type :=
| DtypeNone
| DtypeName (name : string)
| DtypeStrClass.

(** The loop
    [for test_dtype, sig_figs in SIG_FIGS.items():
         if test_dtype.startswith(family) and sig_figs >= digits:
             dtype = test_dtype; break]
    started with [dtype = None]. *)
Fixpoint first_wide_enough (items : list (string * Z)) (family : string)
  (digits : Z) : dtype_value :=
  match items with
  | [] => DtypeNone
  | (test_dtype, sig_figs) :: items' =>
      if startswith test_dtype family && (sig_figs >=? digits)
      then DtypeName test_dtype
      else first_wide_enough items' family digits
  end.

Definition dtype_truthy (d : dtype_value) : bool :=
  match d with
  | DtypeNone => false
  | DtypeName name => negb (String.eqb name "")
  | DtypeStrClass => true
  end.

Definition aseg_gdf_format2dtype (aseg_gdf_format : string)
  : result (dtype_value * pyval * Z * Z) :=
  '(columns, aseg_dtype_code, integer_digits, fractional_digits) <-
    decode_aseg_gdf_format aseg_gdf_format ;;
  dtype <-
    (if String.eqb aseg_dtype_code "I" then
       _ <- assert (fractional_digits =? 0)
              "Integer format cannot be defined with fractional digits" ;;
       let dtype := first_wide_enough SIG_FIGS "int" integer_digits in
       _ <- assert (dtype_truthy dtype)
              ("Invalid integer length of " ++ str_of_Z integer_digits) ;;
       Ok dtype
     else if str_in aseg_dtype_code ["D"; "E"; "F"] then
       let dtype :=
         first_wide_enough SIG_FIGS "float"
           (integer_digits + fractional_digits) in
       _ <- assert (dtype_truthy dtype)
              ("Invalid floating point format of "
                 ++ str_of_Z integer_digits ++ "."
                 ++ str_of_Z fractional_digits) ;;
       Ok dtype
     else Ok DtypeNone) ;;
  (* a second [if], not an [elif]: its [else] takes every other code *)
  dtype <-
    (if String.eqb aseg_dtype_code "A" then
       _ <- assert (fractional_digits =? 0)
              "String format cannot be defined with fractional digits" ;;
       Ok DtypeStrClass
     else
       Raise (BaseException
                ("Unhandled ASEG-GDF dtype code " ++ aseg_dtype_code))) ;;
  Ok (dtype, columns, integer_digits, fractional_digits).

(** ** numpy arrays

    An array is homogeneous: signed integers of 8, 16, 32 or 64 bits as [Z]
    inside the range of the width, IEEE 754 floats as [spec_float] in the
    canonical form of binary32 or binary64, or text. [arr_dtype] is
    [str(array.dtype)]. The data is flat, in row-major order: no function of
    the module looks at the position of an element. *)

Inductive values : Type :=
| Ints (l : list Z)
| Floats (l : list spec_float)
| Texts (l : list string).

(** A Python or numpy scalar. *)
Inductive scalar : Type :=
| SInt (z : Z)
| SFloat (f : spec_float)
| SStr (s : string).

(** What a [numpy.ma.MaskedArray] adds to its [.data]. *)
Record masked_info : Type := {
  ma_mask : list bool;
  ma_fill_value : scalar
}.

(** [array_variable]: an [ndarray], a masked array ([arr_masked]), or a
    netCDF variable, which may carry an [aseg_gdf_format] attribute. *)
Record ndarray : Type := {
  arr_shape : list Z;
  arr_dtype : string;
  arr_data : values;
  arr_masked : option masked_info;
  arr_aseg_gdf_format : option string
}.

Definition plain_array (shape : list Z) (dtype : string) (v : values)
  : ndarray :=
  {| arr_shape := shape; arr_dtype := dtype; arr_data := v;
     arr_masked := None; arr_aseg_gdf_format := None |}.

Definition int_bits (dtype : string) : option Z :=
  if String.eqb dtype "int8" then Some 8
  else if String.eqb dtype "int16" then Some 16
  else if String.eqb dtype "int32" then Some 32
  else if String.eqb dtype "int64" then Some 64
  else None.

(** Precision and exponent bound of a float dtype. *)
Definition float_format (dtype : string) : option (Z * Z) :=
  if String.eqb dtype "float32" then Some (24, 128)
  else if String.eqb dtype "float64" then Some (53, 1024)
  else None.

(** Two's complement wrap-around to [bits] bits. *)
Definition wrap (bits z : Z) : Z :=
  (z + 2 ^ (bits - 1)) mod 2 ^ bits - 2 ^ (bits - 1).

Definition in_range (bits z : Z) : bool :=
  (- 2 ^ (bits - 1) <=? z) && (z <? 2 ^ (bits - 1)).

(** Rounding to nearest even into a float format. *)
Definition round_to (fmt : Z * Z) (x : spec_float) : spec_float :=
  match x with
  | S754_finite s m e =>
      binary_normalize (fst fmt) (snd fmt) (cond_Zopp s (Zpos m)) e s
  | _ => x
  end.

Definition float_of_Z (fmt : Z * Z) (z : Z) : spec_float :=
  binary_normalize (fst fmt) (snd fmt) z 0 false.

Definition binary64 : Z * Z := (53, 1024).

(** Truncation toward zero of a finite float. *)
Definition trunc_float (x : spec_float) : option Z :=
  match x with
  | S754_zero _ => Some 0
  | S754_finite s m e =>
      Some (cond_Zopp s
              (if 0 <=? e then Zpos m * 2 ^ e else Zpos m / 2 ^ (- e)))
  | _ => None
  end.

Fixpoint map_result {A B : Type} (f : A -> result B) (l : list A)
  : result (list B) :=
  match l with
  | [] => Ok []
  | x :: l' => y <- f x ;; ys <- map_result f l' ;; Ok (y :: ys)
  end.

(** Conversion of the data of an array to another dtype. *)
Definition convert (target : string) (v : values) : result values :=
  match int_bits target, float_format target with
  | Some bits, _ =>
      match v with
      | Ints l => Ok (Ints (map (wrap bits) l))
      | Floats l =>
          l' <- map_result
                  (fun x =>
                     match trunc_float x with
                     | Some z =>
                         if in_range bits z then Ok z
                         else Raise (Unmodelled "float to integer, overflow")
                     | None => Raise (Unmodelled "float to integer, not finite")
                     end) l ;;
          Ok (Ints l')
      | Texts _ => Raise (Unmodelled "text to number")
      end
  | None, Some fmt =>
      match v with
      | Ints l => Ok (Floats (map (float_of_Z fmt) l))
      | Floats l => Ok (Floats (map (round_to fmt) l))
      | Texts _ => Raise (Unmodelled "text to number")
      end
  | None, None => Raise (TypeError ("data type not understood: " ++ target))
  end.

(** [a.astype(target)] *)
Definition astype (a : ndarray) (target : string) : result ndarray :=
  v <- convert target (arr_data a) ;;
  Ok (plain_array (arr_shape a) target v).

(** The dtype of [a - b]. *)
Definition promote (d1 d2 : string) : result string :=
  match int_bits d1, int_bits d2, float_format d1, float_format d2 with
  | Some b1, Some b2, _, _ => Ok (if b1 <? b2 then d2 else d1)
  | _, _, Some f1, Some f2 => Ok (if fst f1 <? fst f2 then d2 else d1)
  | Some b, _, _, Some f =>
      Ok (if (b <=? 16) || (fst f =? 53) then d2 else "float64")
  | _, Some b, Some f, _ =>
      Ok (if (b <=? 16) || (fst f =? 53) then d1 else "float64")
  | _, _, _, _ => Raise (Unmodelled "arithmetic on this dtype")
  end.

Fixpoint zip_with {A B C : Type} (f : A -> B -> C) (l1 : list A)
  (l2 : list B) : list C :=
  match l1, l2 with
  | x :: l1', y :: l2' => f x y :: zip_with f l1' l2'
  | _, _ => []
  end.

(** [a - b], for two arrays of one shape. *)
Definition subtract (a b : ndarray) : result ndarray :=
  d <- promote (arr_dtype a) (arr_dtype b) ;;
  va <- convert d (arr_data a) ;;
  vb <- convert d (arr_data b) ;;
  match va, vb, int_bits d, float_format d with
  | Ints la, Ints lb, Some bits, _ =>
      Ok (plain_array (arr_shape a) d
            (Ints (zip_with (fun x y => wrap bits (x - y)) la lb)))
  | Floats la, Floats lb, _, Some fmt =>
      Ok (plain_array (arr_shape a) d
            (Floats (zip_with (SFsub (fst fmt) (snd fmt)) la lb)))
  | _, _, _, _ => Raise (Unmodelled "arithmetic on this dtype")
  end.

(** [np.abs(a)]: the absolute value of the least integer of a width wraps
    round to itself. *)
Definition np_abs (a : ndarray) : result ndarray :=
  match arr_data a, int_bits (arr_dtype a) with
  | Ints l, Some bits =>
      Ok (plain_array (arr_shape a) (arr_dtype a)
            (Ints (map (fun z => wrap bits (Z.abs z)) l)))
  | Floats l, _ =>
      Ok (plain_array (arr_shape a) (arr_dtype a) (Floats (map SFabs l)))
  | _, _ => Raise (Unmodelled "arithmetic on this dtype")
  end.

Definition is_nan (x : spec_float) : bool :=
  match x with S754_nan => true | _ => false end.

Definition fmin (a b : spec_float) : spec_float :=
  if is_nan a then b else if is_nan b then a
  else if SFltb b a then b else a.

Definition fmax (a b : spec_float) : spec_float :=
  if is_nan a then b else if is_nan b then a
  else if SFltb a b then b else a.

Definition empty_reduction : exn :=
  ValueError "zero-size array to reduction operation which has no identity".

(** [np.nanmin(a)]: the least element, NaNs passed over; NaN when there is
    nothing else. *)
Definition nanmin (a : ndarray) : result scalar :=
  match arr_data a with
  | Ints (x :: l) => Ok (SInt (fold_left Z.min l x))
  | Floats (x :: l) => Ok (SFloat (fold_left fmin l x))
  | Ints [] | Floats [] => Raise empty_reduction
  | Texts _ => Raise (Unmodelled "arithmetic on this dtype")
  end.

(** [np.nanmax(a)] *)
Definition nanmax (a : ndarray) : result scalar :=
  match arr_data a with
  | Ints (x :: l) => Ok (SInt (fold_left Z.max l x))
  | Floats (x :: l) => Ok (SFloat (fold_left fmax l x))
  | Ints [] | Floats [] => Raise empty_reduction
  | Texts _ => Raise (Unmodelled "arithmetic on this dtype")
  end.

(** [x < 0] for a numpy scalar. *)
Definition lt_zero (x : scalar) : result bool :=
  match x with
  | SInt z => Ok (z <? 0)
  | SFloat f => Ok (SFltb f (S754_zero false))
  | SStr _ => Raise (TypeError "'<' not supported")
  end.

(** [x + 1.0] for a numpy scalar: a binary64 sum (numpy 1 promotes a
    float32 scalar to binary64 when a Python float is added to it). *)
Definition add_one (x : scalar) : result spec_float :=
  match x with
  | SInt z =>
      Ok (SFadd 53 1024 (float_of_Z binary64 z) (float_of_Z binary64 1))
  | SFloat f =>
      Ok (SFadd 53 1024 (round_to binary64 f) (float_of_Z binary64 1))
  | SStr _ => Raise (TypeError "can only concatenate str")
  end.

(** The least [d' >= d] with [num <= bound * 10 ^ (d' - d)]. *)
Fixpoint digits_up (fuel : nat) (num bound d : Z) : Z :=
  match fuel with
  | O => d
  | S fuel' =>
      if num <=? bound then d
      else digits_up fuel' num (10 * bound) (d + 1)
  end.

(** The greatest [k' >= k] with [num * 10 ^ (k' - k) <= den]. *)
Fixpoint digits_down (fuel : nat) (num den k : Z) : Z :=
  match fuel with
  | O => k
  | S fuel' =>
      if 10 * num <=? den then digits_down fuel' (10 * num) den (k + 1)
      else k
  end.

(** The least integer [d] with [num / den <= 10 ^ d], for a positive
    fraction. *)
Definition ceil_log10_frac (num den : Z) : Z :=
  if num <=? den
  then - digits_down (Z.to_nat (Z.log2_up den)) num den 0
  else digits_up (S (Z.to_nat (Z.log2_up num))) num den 0.

(** A positive finite float, and ten to the [d], as fractions. *)
Definition float_frac (m : positive) (e : Z) : Z * Z :=
  if 0 <=? e then (Zpos m * 2 ^ e, 1) else (Zpos m, 2 ^ (- e)).

Definition pow10_frac (d : Z) : Z * Z :=
  if 0 <=? d then (10 ^ d, 1) else (1, 10 ^ (- d)).

(** Whether the fraction, with [10 ^ (d - 1) < num / den <= 10 ^ d], is
    no power of ten and yet within one part in [2 ^ 32] of one: of
    [10 ^ d] from below or of [10 ^ (d - 1)] from above. *)
Definition near_power_of_ten (num den : Z) : bool :=
  let d := ceil_log10_frac num den in
  let (hn, hd) := pow10_frac d in
  let (ln, ld) := pow10_frac (d - 1) in
  negb (num * hd =? hn * den)
  && ((hn * den * (2 ^ 32 - 1) <? num * hd * 2 ^ 32)
      || (num * ld * 2 ^ 32 <? ln * den * (2 ^ 32 + 1))).

(** [ceil(log10(y))]. [math.log10] gives a float next to the logarithm of
    [y], and the ceiling of that float is the least integer [d] with
    [y <= 10 ^ d] unless the rounding carries it to or across an integer.
    At a power of ten the logarithm is that integer and the C library
    returns it exactly; at more than one part in [2 ^ 32] from every power of
    ten the logarithm is more than a thousand units in the last place away
    from an integer. In between the rounding decides
    ([log10(10 ** 15 + 1.0)] is [15.0]), and the result is not modelled. [math.log10] raises on zero and below and lets
    NaN and infinity through to [math.ceil], which raises on them. *)
Definition ceil_log10 (y : spec_float) : result Z :=
  match y with
  | S754_nan => Raise (ValueError "cannot convert float NaN to integer")
  | S754_infinity false =>
      Raise (OverflowError "cannot convert float infinity to integer")
  | S754_infinity true | S754_zero _ | S754_finite true _ _ =>
      Raise (ValueError "math domain error")
  | S754_finite false m e =>
      let (num, den) := float_frac m e in
      if near_power_of_ten num den
      then Raise (Unmodelled "log10 within a rounding of an integer")
      else Ok (ceil_log10_frac num den)
  end.

(** ** variable2aseg_gdf_format *)

(** The tuple the function returns. *)
Record column_format : Type := {
  aseg_gdf_format : string;
  dtype : string;
  columns : Z;
  integer_digits : Z;
  fractional_digits : Z;
  python_format : string
}.

(** ['{' + ':{:d}.{:d}f'.format(width, precision) + '}'] *)
Definition float_template (width precision : Z) : string :=
  "{" ++ ":" ++ str_of_Z width ++ "." ++ str_of_Z precision ++ "f" ++ "}".

(** ['{' + ':{:d}s'.format(width) + '}'] *)
Definition text_template (width : Z) : string :=
  "{" ++ ":" ++ str_of_Z width ++ "s" ++ "}".

Definition variable2aseg_gdf_format (array_variable : ndarray)
  (decimal_places : option Z) : result column_format :=
  columns <-
    match arr_shape array_variable with
    | [_] => Ok 1
    | [_; n] => Ok n
    | _ =>
        Raise (BaseException "Unable to handle arrays with dimensionality > 3")
    end ;;
  let dtype := arr_dtype array_variable in
  (* the mask of a masked array is dropped, its fill values stay *)
  let data_array :=
    plain_array (arr_shape array_variable) dtype (arr_data array_variable) in
  entry <- dict_item SIG_FIGS dtype ;;
  let sig_figs := entry + 1 in
  least <- nanmin data_array ;;
  negative <- lt_zero least ;;
  let sign_width := if negative then 1 else 0 in
  magnitudes <- np_abs data_array ;;
  greatest <- nanmax magnitudes ;;
  above <- add_one greatest ;;
  integer_digits <- ceil_log10 above ;;
  let aseg_dtype_code := dict_get ASEG_DTYPE_CODE_MAPPING dtype in
  aseg_dtype_code <-
    match aseg_dtype_code with
    | Some code => Ok code
    | None => Raise (AssertionError ("Unhandled dtype " ++ dtype))
    end ;;
  let prepend (aseg_gdf_format : string) : string :=
    if columns >? 1 then str_of_Z columns ++ aseg_gdf_format
    else aseg_gdf_format in
  if String.eqb aseg_dtype_code "I" then
    let fractional_digits := 0 in
    let aseg_gdf_format := "I" ++ str_of_Z integer_digits in
    let python_format :=
      float_template (sign_width + integer_digits) fractional_digits in
    Ok {| aseg_gdf_format := prepend aseg_gdf_format;
          dtype := dtype;
          columns := columns;
          integer_digits := integer_digits;
          fractional_digits := fractional_digits;
          python_format := python_format |}
  else if str_in aseg_dtype_code ["F"; "D"] then
    fractional_digits <-
      match decimal_places, arr_aseg_gdf_format array_variable with
      | Some decimal_places, _ =>
          Ok (Z.min decimal_places (sig_figs - integer_digits))
      | None, Some declared =>
          '(_, _, _, fractional_digits) <- decode_aseg_gdf_format declared ;;
          Ok (Z.min fractional_digits (sig_figs - integer_digits + 1))
      | None, None => Ok (sig_figs - integer_digits + 1)
      end ;;
    let aseg_gdf_format :=
      aseg_dtype_code ++ str_of_Z integer_digits ++ "."
        ++ str_of_Z fractional_digits in
    let python_format :=
      float_template (sign_width + integer_digits + fractional_digits + 1)
        fractional_digits in
    Ok {| aseg_gdf_format := prepend aseg_gdf_format;
          dtype := dtype;
          columns := columns;
          integer_digits := integer_digits;
          fractional_digits := fractional_digits;
          python_format := python_format |}
  else if String.eqb aseg_dtype_code "A" then
    '(integer_digits, fractional_digits) <-
      match arr_aseg_gdf_format array_variable with
      | Some declared =>
          '(_, _, integer_digits, fractional_digits) <-
            decode_aseg_gdf_format declared ;;
          Ok (integer_digits, fractional_digits)
      | None => Ok (40, 0)
      end ;;
    let python_format := text_template integer_digits in
    (* [aseg_gdf_format] was never assigned on this path *)
    Raise (UnboundLocalError "aseg_gdf_format")
  else
    Raise (BaseException ("Unhandled ASEG-GDF dtype code " ++ aseg_dtype_code)).

(** ** fix_field_precision *)

(** [pow(10, -fractional_digits)]: an integer when the exponent is not
    negative, else the float nearest to the negative power of ten. *)
Definition pow10_neg (fractional_digits : Z) : scalar :=
  if fractional_digits <=? 0 then SInt (10 ^ (- fractional_digits))
  else
    SFloat
      (SFdiv 53 1024 (S754_finite false 1 0)
         (S754_finite false (Z.to_pos (10 ^ fractional_digits)) 0)).

(** An array compared element by element with a Python scalar, which takes
    the dtype of the array, except that integers meet a float in binary64. *)
Definition compare_with (opz : Z -> Z -> bool)
  (opf : spec_float -> spec_float -> bool) (a : ndarray) (x : scalar)
  : result (list bool) :=
  match arr_data a, x with
  | Ints l, SInt z => Ok (map (fun y => opz y z) l)
  | Ints l, SFloat f => Ok (map (fun y => opf (float_of_Z binary64 y) f) l)
  | Floats l, SInt z =>
      match float_format (arr_dtype a) with
      | Some fmt => Ok (map (fun y => opf y (float_of_Z fmt z)) l)
      | None => Raise (Unmodelled "arithmetic on this dtype")
      end
  | Floats l, SFloat f =>
      match float_format (arr_dtype a) with
      | Some fmt => Ok (map (fun y => opf y (round_to fmt f)) l)
      | None => Raise (Unmodelled "arithmetic on this dtype")
      end
  | _, _ => Raise (Unmodelled "comparison with text")
  end.

(** [a >= x] *)
Definition array_ge : ndarray -> scalar -> result (list bool) :=
  compare_with (fun y z => z <=? y) (fun y f => SFleb f y).

(** [a == x] *)
Definition array_eq : ndarray -> scalar -> result (list bool) :=
  compare_with Z.eqb SFeqb.

(** [np.any(mask)], and the truth of [np.count_nonzero(mask)]. *)
Definition np_any (mask : list bool) : bool := existsb (fun b => b) mask.

Fixpoint select_list {A : Type} (mask : list bool) (l : list A) : list A :=
  match mask, l with
  | b :: mask', x :: l' =>
      if b then x :: select_list mask' l' else select_list mask' l'
  | _, _ => []
  end.

Definition values_length (v : values) : nat :=
  match v with
  | Ints l => List.length l
  | Floats l => List.length l
  | Texts l => List.length l
  end.

(** [a[mask]]: the elements of [a] where [mask] holds, as a flat array. *)
Definition select (mask : list bool) (a : ndarray) : ndarray :=
  let v :=
    match arr_data a with
    | Ints l => Ints (select_list mask l)
    | Floats l => Floats (select_list mask l)
    | Texts l => Texts (select_list mask l)
    end in
  plain_array [Z.of_nat (values_length v)] (arr_dtype a) v.

(** [a[0]] of a flat array. *)
Definition item0 (a : ndarray) : result scalar :=
  match arr_data a with
  | Ints (x :: _) => Ok (SInt x)
  | Floats (x :: _) => Ok (SFloat x)
  | Texts (x :: _) => Ok (SStr x)
  | _ => Raise (IndexError "index 0 is out of bounds")
  end.

(** [str(fill_value)]. A float that is a whole number below [10 ^ 16]
    prints as that number followed by [.0]; the shortest decimal of any other
    finite float is not modelled. *)
Definition str_of_scalar (x : scalar) : result string :=
  match x with
  | SInt z => Ok (str_of_Z z)
  | SStr s => Ok s
  | SFloat S754_nan => Ok "nan"
  | SFloat (S754_infinity s) => Ok (if s then "-inf" else "inf")
  | SFloat (S754_zero s) => Ok (if s then "-0.0" else "0.0")
  | SFloat (S754_finite s m e) =>
      let whole :=
        if 0 <=? e then Some (Zpos m * 2 ^ e)
        else if Zpos m mod 2 ^ (- e) =? 0 then Some (Zpos m / 2 ^ (- e))
        else None in
      match whole with
      | Some n =>
          if n <? 10 ^ 16
          then Ok ((if s then "-" else "") ++ str_of_Z n ++ ".0")
          else Raise (Unmodelled "text of a float in exponent notation")
      | None => Raise (Unmodelled "text of a float with a fraction")
      end
  end.

(** [float(text)] for a sign, digits, a dot and digits: the binary64 nearest
    to the decimal. *)
Definition float_of_str (text : string) : result spec_float :=
  let (negative, body) :=
    match text with
    | String "-" rest => (true, rest)
    | _ => (false, text)
    end in
  let (whole, rest) := span_chars is_digit body in
  let bad := Raise (ValueError ("could not convert string to float: " ++ text)) in
  let decimal (digits : string) (places : nat) :=
    match int_digits_acc digits 0 with
    | Zpos n =>
        Ok (SFdiv 53 1024 (S754_finite negative n 0)
              (S754_finite false (Z.to_pos (10 ^ Z.of_nat places)) 0))
    | _ => Ok (S754_zero negative)
    end in
  match rest with
  | EmptyString =>
      if String.eqb whole "" then bad else decimal whole O
  | String "." fraction =>
      if all_chars is_digit fraction
         && negb (String.eqb whole "" && String.eqb fraction "")
      then decimal (whole ++ fraction) (String.length fraction)
      else bad
  | _ => bad
  end.

(** [\d{0,n}] as [re.compile] reads it: a bounded repetition when [n] is a
    number without sign; with a minus sign the braces are no quantifier and
    stand for themselves after a single [\d]. *)
Definition digits_upto (n : Z) : regex :=
  if 0 <=? n then Upto (Z.to_nat n) (Class is_digit)
  else Seq (Class is_digit) (Lits ("{0," ++ str_of_Z n ++ "}")).

(** ['(-?)\d*?(\d{0,<integer_digits>}\.\d{0,<fractional_digits>})'] *)
Definition truncation_pattern (integer_digits fractional_digits : Z) : regex :=
  Seq (Group 1 (Upto 1 (Lit "-")))
 (Seq (LazyStar (Class is_digit))
      (Group 2 (Seq (digits_upto integer_digits)
               (Seq (Lit ".") (digits_upto fractional_digits))))).

(** The body of the inner [try]: the fill value cut down to
    [integer_digits] digits before the point and [fractional_digits] after
    it. *)
Definition truncate_fill_value (data_array : ndarray)
  (no_data_mask : list bool) (integer_digits fractional_digits : Z)
  (fill_value : scalar) : result scalar :=
  let pattern := truncation_pattern integer_digits fractional_digits in
  text <- str_of_scalar fill_value ;;
  match re_search pattern text with
  | None => Raise (AttributeError "'NoneType' object has no attribute 'group'")
  | Some search =>
      sign <- group_text search 1 ;;
      digits <- group_text search 2 ;;
      truncated_fill_value <- float_of_str (sign ++ digits) ;;
      hits <- array_eq (select (map negb no_data_mask) data_array)
                (SFloat truncated_fill_value) ;;
      _ <- assert (negb (np_any hits)) "Truncated fill value is ambiguous" ;;
      Ok (SFloat truncated_fill_value)
  end.

(** The tuple [fix_field_precision] returns. *)
Record reduced_format : Type := {
  new_format : column_format;
  new_fill_value : option scalar
}.

(** The locals that one round of a loop can change for the next. *)
Record locals : Type := {
  fill_value : option scalar;
  precision_digits : Z            (* the local [fractional_digits] *)
}.

(** [np.count_nonzero(np.abs(data_array - smaller_array)
                       >= pow(10, -fractional_digits))], as a truth value. *)
Definition differences_found (data_array smaller_array : ndarray)
  (fractional_digits : Z) : result bool :=
  difference_array <- subtract data_array smaller_array ;;
  magnitudes <- np_abs difference_array ;;
  hits <- array_ge magnitudes (pow10_neg fractional_digits) ;;
  Ok (np_any hits).

(** The loop [for smaller_dtype in dtype_reduction_list[:index:-1]], over the
    dtypes still to try. [Ok None] is the loop running out; the locals come
    back as the loop, or the exception that ended it, left them. *)
Fixpoint try_smaller (data_array : ndarray) (no_data_mask : list bool)
  (candidates : list string) (st : locals)
  : locals * result (option reduced_format) :=
  match candidates with
  | [] => (st, Ok None)
  | smaller_dtype :: candidates' =>
      match
        (smaller_array <- astype data_array smaller_dtype ;;
         found <- differences_found data_array smaller_array
                    (precision_digits st) ;;
         if found then Ok None
         else
           new <- variable2aseg_gdf_format smaller_array
                    (Some (precision_digits st)) ;;
           Ok (Some new))
      with
      | Raise e => (st, Raise e)
      | Ok None =>
          (* differences found - try larger datatype *)
          try_smaller data_array no_data_mask candidates' st
      | Ok (Some new) =>
          let st :=
            {| fill_value := fill_value st;
               precision_digits := fractional_digits new |} in
          let finish (fill : scalar) :=
            match
              truncate_fill_value data_array no_data_mask
                (integer_digits new) (fractional_digits new) fill
            with
            | Ok truncated =>
                (st, Ok (Some {| new_format := new;
                                 new_fill_value := Some truncated |}))
            | Raise (Unmodelled what) => (st, Raise (Unmodelled what))
            | Raise (BaseException msg) => (st, Raise (BaseException msg))
            | Raise _ =>
                (* except Exception: logged, unable to truncate fill value *)
                (st, Ok (Some {| new_format := new;
                                 new_fill_value := Some fill |}))
            end in
          match fill_value st with
          | None =>
              (st, Ok (Some {| new_format := new; new_fill_value := None |}))
          | Some fill =>
              if np_any no_data_mask then
                match
                  (reduced_precision_fill_value <-
                     item0 (select no_data_mask data_array) ;;
                   hits <- array_eq
                             (select (map negb no_data_mask) data_array)
                             reduced_precision_fill_value ;;
                   Ok (reduced_precision_fill_value, np_any hits))
                with
                | Raise e => (st, Raise e)
                | Ok (_, true) =>
                    (* reduced precision fill value is ambiguous *)
                    try_smaller data_array no_data_mask candidates' st
                | Ok (reduced_precision_fill_value, false) =>
                    finish reduced_precision_fill_value
                end
              else finish fill
          end
      end
  end.

(** [l[:index:-1]]: the elements after [index], last first. *)
Definition after_reversed {A : Type} (l : list A) (index : nat) : list A :=
  rev (skipn (S index) l).

(** The loop [for dtype_reduction_list in DTYPE_REDUCTION_LISTS] with its
    [try ... except ValueError: continue]; falling off its end returns
    [None]. *)
Fixpoint reduce_in (lists : list (list string)) (array_variable : ndarray)
  (current_dtype : string) (st : locals) : result (option reduced_format) :=
  match lists with
  | [] => Ok None
  | dtype_reduction_list :: lists' =>
      match list_index dtype_reduction_list current_dtype with
      | Raise (ValueError _) =>
          reduce_in lists' array_variable current_dtype st
      | Raise e => Raise e
      | Ok current_dtype_index =>
          let data_array :=
            plain_array (arr_shape array_variable) (arr_dtype array_variable)
              (arr_data array_variable) in
          let st :=
            match arr_masked array_variable with
            | Some m =>
                {| fill_value := Some (ma_fill_value m);
                   precision_digits := precision_digits st |}
            | None => st
            end in
          let no_data_mask :=
            match fill_value st with
            | Some fill => array_eq data_array fill
            | None =>
                Ok (match arr_masked array_variable with
                    | Some m => ma_mask m
                    | None => []
                    end)
            end in
          let (st, r) :=
            match no_data_mask with
            | Raise e => (st, Raise e)
            | Ok no_data_mask =>
                try_smaller data_array no_data_mask
                  (after_reversed dtype_reduction_list current_dtype_index)
                  st
            end in
          match r with
          | Ok (Some new) => Ok (Some new)
          | Ok None | Raise (ValueError _) =>
              reduce_in lists' array_variable current_dtype st
          | Raise e => Raise e
          end
      end
  end.

Definition fix_field_precision (array_variable : ndarray)
  (current_dtype : string) (fractional_digits : Z)
  (fill_value : option scalar) : result (option reduced_format) :=
  reduce_in DTYPE_REDUCTION_LISTS array_variable current_dtype
    {| fill_value := fill_value; precision_digits := fractional_digits |}.

(** ** grav2netcdf_converter.main: the values it reads before any query

    [main] takes the path, the user, the database and the password from the
    command line, connects, and tidies the survey ids the first query yields.
    The connection and the queries are not modelled; the rows of the cursor
    are a list of their first fields. *)

(** [l[i]] for an index that is not negative. *)
Definition list_item (l : list string) (i : nat) : result string :=
  match nth_error l i with
  | Some x => Ok x
  | None => Raise (IndexError "list index out of range")
  end.

(** The arguments of [cx_Oracle.connect], and the output path. *)
Record connection_arguments : Type := {
  nc_out_path : string;
  u_id : string;
  oracle_database : string;
  pw : string
}.

(** The head of [main], over [sys.argv]. *)
Definition main_arguments (argv : list string) : result connection_arguments :=
  _ <- assert (4 <=? List.length argv)%nat "...." ;;
  nc_out_path <- list_item argv 1 ;;
  u_id <- list_item argv 2 ;;
  oracle_database <- list_item argv 3 ;;
  pw <- list_item argv 4 ;;
  Ok {| nc_out_path := nc_out_path; u_id := u_id;
        oracle_database := oracle_database; pw := pw |}.

(** [re.search('\d+', survey_id).group()]: group 0 is the whole match. *)
Definition tidy_survey_id (survey_id : string) : result string :=
  match re_search (Group 0 (Plus (Class is_digit))) survey_id with
  | None => Raise (AttributeError "'NoneType' object has no attribute 'group'")
  | Some m => group_text m 0
  end.

(** The loop [for survey_row in survey_cursor], appending the tidied id of
    each row to [survey_id_list]. *)
Definition tidy_survey_ids (survey_rows : list string) : result (list string) :=
  map_result tidy_survey_id survey_rows.

(** * Reference definitions

    What the statements below are written with: the matcher's search spelt
    out on the text, the grammar and the magnitudes as the specification
    words them, and the concrete arrays of the examples. *)

(** Whether the text starts with a character of the class. *)
Definition head_in (p : ascii -> bool) (s : string) : bool :=
  match s with
  | String c _ => p c
  | EmptyString => false
  end.

(** The greedy loop over a character class, spelt out: the longest run
    first, then one character less, down to none. *)
Fixpoint greedy {R : Type} (p : ascii -> bool) (k : @cont R) (s : string)
  (g : captures) : option R :=
  match s with
  | String a s' => if p a then or_else (greedy p k s' g) (k s g) else k s g
  | EmptyString => k s g
  end.

(** The continuation of [re.match]: whatever is left is accepted. *)
Definition accept : @cont captures := fun _ g => Some g.

Definition is_dot (c : ascii) : bool := Ascii.eqb c ".".

(** The captures [g] with group [i] bound to [run]; a group that matched
    nothing takes no part in the match. *)
Definition with_run (i : nat) (run : string) (g : captures) : captures :=
  match run with
  | EmptyString => g
  | _ => (i, run) :: g
  end.

(** The pattern after the column count: ['(\w)(\d+)\.*(\d+)*']. *)
Definition code_and_digits : regex :=
  Seq (Group 2 (Class is_word))
 (Seq (Group 3 (Plus (Class is_digit)))
 (Seq (Star (Lit "."))
      (Star (Group 4 (Plus (Class is_digit)))))).

(** The same, read off the text directly. *)
Definition tail_direct (s : string) (g : captures) : option captures :=
  match s with
  | String c (String d s2) =>
      if is_word c && is_digit d then
        let s3 := snd (span_chars is_digit s2) in
        let s4 := snd (span_chars is_dot s3) in
        Some (with_run 4 (fst (span_chars is_digit s4))
                ((3%nat, String d (fst (span_chars is_digit s2)))
                   :: (2%nat, String c "") :: g))
      else None
  | _ => None
  end.

(** The split the column count settles on, for a continuation that accepts
    exactly the texts [ok] holds of: the longest non-empty run of leading
    digits after which it accepts, with what follows the run. *)
Fixpoint best (ok : string -> bool) (s : string) : option (string * string) :=
  match s with
  | String a s' =>
      if is_digit a then
        match best ok s' with
        | Some (w, s1) => Some (String a w, s1)
        | None => if ok s' then Some (String a "", s') else None
        end
      else None
  | EmptyString => None
  end.

(** The same, the empty run allowed. *)
Definition best0 (ok : string -> bool) (s : string)
  : option (string * string) :=
  match best ok s with
  | Some x => Some x
  | None => if ok s then Some ("", s) else None
  end.

(** Where the pattern after the column count can start: a word character
    followed by a digit. *)
Definition code_ok (s : string) : bool :=
  match s with
  | String c (String d _) => is_word c && is_digit d
  | _ => false
  end.

(** The four fields, from the column digits [w] and the text [s1] that
    starts at the type code. *)
Definition fields_direct (w s1 : string) : result (pyval * string * Z * Z) :=
  match s1 with
  | String c (String d s2) =>
      let s3 := snd (span_chars is_digit s2) in
      let s4 := snd (span_chars is_dot s3) in
      let fraction := fst (span_chars is_digit s4) in
      code <- upper_code c ;;
      Ok (match w with EmptyString => PyInt 1 | _ => PyStr w end,
          code,
          int_digits_acc (String d (fst (span_chars is_digit s2))) 0,
          match fraction with
          | EmptyString => 0
          | _ => int_digits_acc fraction 0
          end)
  | _ => Ok (PyInt 1, "", 0, 0)
  end.


(** No dot anywhere in the text. *)
Definition dot_free (s : string) : bool :=
  all_chars (fun c => negb (is_dot c)) s.

(** A code point of ASCII. *)
Definition is_ascii (c : ascii) : bool := (nat_of_ascii c <? 128)%nat.


(** The upper case of an ASCII text, character by character. *)
Fixpoint ascii_upper (s : string) : string :=
  match s with
  | EmptyString => EmptyString
  | String c s' => String (upper_char c) (ascii_upper s')
  end.



Definition float_kind (dtype : string) : bool :=
  str_in dtype ["float32"; "float64"].

(** [ceil(log10(np.nanmax(np.abs(data_array)) + 1.0))] *)
Definition digits_of (a : ndarray) : result Z :=
  magnitudes <-
    np_abs (plain_array (arr_shape a) (arr_dtype a) (arr_data a)) ;;
  greatest <- nanmax magnitudes ;;
  above <- add_one greatest ;;
  ceil_log10 above.






(** ** Concrete arrays *)

Definition int64_array (l : list Z) : ndarray :=
  plain_array [Z.of_nat (List.length l)] "int64" (Ints l).

Definition float64_array (l : list spec_float) : ndarray :=
  plain_array [Z.of_nat (List.length l)] "float64" (Floats l).

(** 8388608.0, that is [2 ^ 23], and 8388608.4 in binary64. *)
Definition f8388608 : spec_float := S754_finite false 4503599627370496 (-29).
Definition f8388608_4 : spec_float := S754_finite false 4503599842118861 (-29).

(** 1.23, -4.5 and 100.0 in binary64. *)
Definition f1_23 : spec_float := S754_finite false 5539427541665710 (-52).
Definition fm4_5 : spec_float := S754_finite true 5066549580791808 (-50).
Definition f100 : spec_float := S754_finite false 7036874417766400 (-46).

(** 3000000000.0 in binary32. *)
Definition three_billion32 : spec_float := S754_finite false 11718750 8.

Definition int64_max : Z := 9223372036854775807.

Definition text_array (declared : option string) : ndarray :=
  {| arr_shape := [2]; arr_dtype := "str"; arr_data := Texts ["ab"; "c"];
     arr_masked := None; arr_aseg_gdf_format := declared |}.



(** C7 as the specification states it: fractional_digits is never
    negative. *)
Definition fractional_digits_never_negative : Prop :=
  forall a decimal_places r,
    variable2aseg_gdf_format a decimal_places = Ok r ->
    0 <= fractional_digits r.

(** ** The tuple of [variable2aseg_gdf_format], part by part *)

(** The column count a shape gives: 1 for one axis, the length of the second
    axis for two. *)
Definition shape_columns (shape : list Z) : option Z :=
  match shape with
  | [_] => Some 1
  | [_; n] => Some n
  | _ => None
  end.

(** Some element is below zero; a NaN is not. *)
Definition any_negative (v : values) : bool :=
  match v with
  | Ints l => existsb (fun z => z <? 0) l
  | Floats l => existsb (fun x => SFltb x (S754_zero false)) l
  | Texts _ => false
  end.

(** The column count as it stands in front of a specifier. *)
Definition column_prefix (columns : Z) : string :=
  if columns >? 1 then str_of_Z columns else "".

(** The column count as [decode_aseg_gdf_format] gives it back. *)
Definition columns_decoded (columns : Z) : pyval :=
  if columns >? 1 then PyStr (str_of_Z columns) else PyInt 1.

(** ** The loop of [fix_field_precision] *)

(** [array_variable[:]], the data of the array without mask or attributes. *)
Definition data_of (a : ndarray) : ndarray :=
  plain_array (arr_shape a) (arr_dtype a) (arr_data a).

(** An array with no element, of an integer or a float dtype. *)
Definition empty_numeric (a : ndarray) : Prop :=
  (arr_data a = Ints []%list
   /\ In (arr_dtype a) ["int8"; "int16"; "int32"; "int64"]%list)
  \/ (arr_data a = Floats []%list
      /\ In (arr_dtype a) ["float32"; "float64"]%list).

(** ** Survey ids *)

(** No digit anywhere in the text. *)
Definition digit_free (s : string) : bool :=
  all_chars (fun c => negb (is_digit c)) s.

(** * Properties *)

(** ** Strings *)

Lemma length_append (a b : string) :
  String.length (a ++ b) = (String.length a + String.length b)%nat.
Proof. induction a as [|c a IH]; simpl; [reflexivity | now rewrite IH]. Qed.

Lemma substring_prefix (a b : string) :
  substring 0 (String.length a) (a ++ b) = a.
Proof. induction a as [|c a IH]; simpl; [now destruct b | now rewrite IH]. Qed.

Lemma consumed_append (a b : string) : consumed (a ++ b) b = a.
Proof.
  unfold consumed. rewrite length_append.
  replace (String.length a + String.length b - String.length b)%nat
    with (String.length a) by lia.
  apply substring_prefix.
Qed.

Lemma append_assoc (a b c : string) : (a ++ b) ++ c = a ++ (b ++ c).
Proof. induction a as [|x a IH]; simpl; [reflexivity | now rewrite IH]. Qed.

Lemma append_empty_r (a : string) : a ++ "" = a.
Proof. induction a as [|x a IH]; simpl; [reflexivity | now rewrite IH]. Qed.

Lemma span_chars_append (p : ascii -> bool) (s : string) :
  fst (span_chars p s) ++ snd (span_chars p s) = s.
Proof.
  induction s as [|c s IH]; simpl; [reflexivity|].
  destruct (p c); [|reflexivity].
  destruct (span_chars p s) as [run rest]; simpl in *. now rewrite IH.
Qed.

Lemma span_chars_all (p : ascii -> bool) (s : string) :
  all_chars p (fst (span_chars p s)) = true.
Proof.
  induction s as [|c s IH]; simpl; [reflexivity|].
  destruct (p c) eqn:E; [|reflexivity].
  destruct (span_chars p s) as [run rest]; simpl in *. now rewrite E.
Qed.

Lemma span_chars_stops (p : ascii -> bool) (s : string) :
  head_in p (snd (span_chars p s)) = false.
Proof.
  induction s as [|c s IH]; simpl; [reflexivity|].
  destruct (p c) eqn:E; [|simpl; exact E].
  destruct (span_chars p s) as [run rest]; simpl in *. exact IH.
Qed.

Lemma span_chars_head_out (p : ascii -> bool) (s : string) :
  head_in p s = false -> span_chars p s = ("", s).
Proof. destruct s as [|c s]; simpl; [reflexivity | now intros ->]. Qed.

Lemma span_chars_run (p : ascii -> bool) (pre t : string) :
  all_chars p pre = true -> head_in p t = false ->
  span_chars p (pre ++ t) = (pre, t).
Proof.
  intros Hpre Ht. induction pre as [|c pre IH]; simpl in *.
  - now apply span_chars_head_out.
  - apply andb_prop in Hpre as [Hc Hpre]. rewrite Hc, IH by assumption.
    reflexivity.
Qed.

(** ** The matcher on a repeated character class *)

Section ClassLoops.

Context {R : Type}.
Variable p : ascii -> bool.
Variable step : string -> captures -> @cont R -> option R.
Hypothesis step_class :
  forall s g k,
    step s g k =
    match s with
    | String a s' => if p a then k s' g else None
    | EmptyString => None
    end.

Lemma star_loop_class (k : @cont R) (fuel : nat) (s : string)
  (g : captures) :
  (String.length s <= fuel)%nat ->
  star_loop step k fuel s g = greedy p k s g.
Proof.
  revert s. induction fuel as [|fuel IH]; intros s Hlen.
  - destruct s; simpl in Hlen; [reflexivity | lia].
  - simpl. rewrite step_class. destruct s as [|a s]; [reflexivity|].
    simpl. destruct (p a); [|reflexivity].
    replace (String.length s <? S (String.length s))%nat with true
      by (symmetry; apply Nat.ltb_lt; lia).
    rewrite IH by (simpl in Hlen; lia). reflexivity.
Qed.

(** When the continuation accepts what follows the longest run, that is
    the answer. *)
Lemma greedy_first (k : @cont R) (s : string) (g : captures) (x : R) :
  k (snd (span_chars p s)) g = Some x -> greedy p k s g = Some x.
Proof.
  induction s as [|a s IH]; simpl; [easy|].
  destruct (p a); [|easy].
  destruct (span_chars p s) as [run rest]; simpl in *.
  intros H. now rewrite IH.
Qed.

End ClassLoops.

Lemma run_class_step {R : Type} (p : ascii -> bool) (s : string)
  (g : captures) (k : @cont R) :
  run (Class p) s g k =
  match s with
  | String a s' => if p a then k s' g else None
  | EmptyString => None
  end.
Proof. reflexivity. Qed.

Lemma run_lit_step {R : Type} (c : ascii) (s : string) (g : captures)
  (k : @cont R) :
  run (Lit c) s g k =
  match s with
  | String a s' => if Ascii.eqb a c then k s' g else None
  | EmptyString => None
  end.
Proof. reflexivity. Qed.

Lemma run_seq {R : Type} (r1 r2 : regex) (s : string) (g : captures)
  (k : @cont R) :
  run (Seq r1 r2) s g k = run r1 s g (fun s1 g1 => run r2 s1 g1 k).
Proof. reflexivity. Qed.

Lemma run_group {R : Type} (i : nat) (r : regex) (s : string) (g : captures)
  (k : @cont R) :
  run (Group i r) s g k =
  run r s g (fun s1 g1 => k s1 ((i, consumed s s1) :: g1)).
Proof. reflexivity. Qed.

Lemma run_star {R : Type} (r : regex) (s : string) (g : captures)
  (k : @cont R) :
  run (Star r) s g k = star_loop (run r) k (String.length s) s g.
Proof. reflexivity. Qed.

(** [r+] on a class: at least one character, then the greedy loop. *)
Lemma run_plus_class {R : Type} (p : ascii -> bool) (s : string)
  (g : captures) (k : @cont R) :
  run (Plus (Class p)) s g k =
  match s with
  | String a s' => if p a then greedy p k s' g else None
  | EmptyString => None
  end.
Proof.
  unfold Plus. rewrite run_seq, run_class_step.
  destruct s as [|a s]; [reflexivity|].
  destruct (p a); [|reflexivity].
  rewrite run_star. apply star_loop_class; [intros; reflexivity | lia].
Qed.

Lemma star_loop_S {R : Type} (step : string -> captures -> cont -> option R)
  (k : cont) (fuel : nat) (s : string) (g : captures) :
  star_loop step k (S fuel) s g =
  or_else
    (step s g
       (fun s1 g1 =>
          if (String.length s1 <? String.length s)%nat
          then star_loop step k fuel s1 g1 else None))
    (k s g).
Proof. reflexivity. Qed.

(** ** The format pattern, piece by piece *)

Lemma star_group_stops (i : nat) (p : ascii -> bool) (fuel : nat)
  (s : string) (g : captures) :
  head_in p s = false ->
  star_loop (run (Group i (Plus (Class p)))) accept fuel s g = Some g.
Proof.
  intros H. destruct fuel as [|fuel]; [reflexivity|].
  rewrite star_loop_S, run_group, run_plus_class.
  destruct s as [|a s]; [reflexivity|]. simpl in H. now rewrite H.
Qed.

Lemma star_group_accept (i : nat) (p : ascii -> bool) (fuel : nat)
  (s : string) (g : captures) :
  (String.length s <= fuel)%nat ->
  star_loop (run (Group i (Plus (Class p)))) accept fuel s g =
  Some (with_run i (fst (span_chars p s)) g).
Proof.
  intros Hlen. destruct fuel as [|fuel].
  - destruct s; simpl in Hlen; [reflexivity | lia].
  - rewrite star_loop_S, run_group, run_plus_class.
    destruct s as [|a s]; [reflexivity|]. simpl span_chars.
    destruct (p a) eqn:Ea; [|reflexivity].
    pose proof (span_chars_append p s) as Happ.
    pose proof (span_chars_stops p s) as Hstop.
    destruct (span_chars p s) as [digits rest] eqn:Espan. simpl in *.
    erewrite greedy_first; [reflexivity|].
    rewrite Espan. simpl.
    replace (String.length rest <? S (String.length s))%nat with true.
    + rewrite star_group_stops by assumption.
      rewrite <- Happ at 1.
      change (String a (digits ++ rest)) with (String a digits ++ rest).
      now rewrite consumed_append.
    + symmetry. apply Nat.ltb_lt. rewrite <- Happ, length_append. lia.
Qed.

Lemma run_code_and_digits (s : string) (g : captures) :
  run code_and_digits s g accept = tail_direct s g.
Proof.
  unfold code_and_digits. rewrite run_seq, run_group, run_class_step.
  destruct s as [|c s]; [reflexivity|]. simpl tail_direct.
  destruct (is_word c); [|now destruct s].
  rewrite run_seq, run_group, run_plus_class.
  destruct s as [|d s2]; [reflexivity|].
  destruct (is_digit d); [|reflexivity]. simpl andb. cbv iota.
  pose proof (span_chars_append is_digit s2) as Happ.
  destruct (span_chars is_digit s2) as [digits s3] eqn:E3. simpl in Happ.
  simpl fst; simpl snd.
  apply greedy_first. rewrite E3. simpl snd.
  rewrite run_seq, run_star.
  rewrite (star_loop_class is_dot) by (intros; reflexivity || lia).
  apply greedy_first.
  rewrite run_star, star_group_accept by lia.
  subst s2.
  change (String d (digits ++ s3)) with (String d digits ++ s3).
  rewrite consumed_append.
  change (String c (String d digits ++ s3))
    with (String c "" ++ (String d digits ++ s3)).
  now rewrite consumed_append.
Qed.

(** ** The column count: [(\d+)*] with backtracking *)

Section ColumnCount.

Context {R : Type}.
Variable K : @cont R.
Variable ok : string -> bool.
Hypothesis K_fails : forall s g, ok s = false -> K s g = None.
Hypothesis K_succeeds : forall s g, ok s = true -> K s g <> None.

Lemma best_cons (a : ascii) (s : string) :
  is_digit a = true ->
  best ok (String a s) =
  match best0 ok s with
  | Some (w, s1) => Some (String a w, s1)
  | None => None
  end.
Proof.
  intros Ha. simpl. rewrite Ha. unfold best0.
  destruct (best ok s) as [[w s1]|]; [reflexivity|].
  now destruct (ok s).
Qed.

Lemma best_ok (s w s1 : string) : best ok s = Some (w, s1) -> ok s1 = true.
Proof.
  revert w s1. induction s as [|a s IH]; simpl; [easy|]. intros w s1.
  destruct (is_digit a); [|easy].
  destruct (best ok s) as [[w' s1']|].
  - intros [= <- <-]. eauto.
  - destruct (ok s) eqn:E; [|easy]. now intros [= <- <-].
Qed.

Lemma best0_ok (s w s1 : string) : best0 ok s = Some (w, s1) -> ok s1 = true.
Proof.
  unfold best0. destruct (best ok s) as [[w' s1']|] eqn:E.
  - intros [= <- <-]. eapply best_ok; eauto.
  - destruct (ok s) eqn:E'; [|easy]. now intros [= <- <-].
Qed.

Lemma best0_head_out (s : string) :
  head_in is_digit s = false ->
  best0 ok s = if ok s then Some ("", s) else None.
Proof.
  intros H. unfold best0. destruct s as [|a s]; [reflexivity|].
  simpl in *. now rewrite H.
Qed.

Lemma or_else_some (a b : option R) : a <> None -> or_else a b = a.
Proof. now destruct a. Qed.

(** The greedy loop inside the group, when every continuation that gets
    the chance behaves as [K] with the run so far as group [i]. *)
Lemma greedy_best (i : nat) (Kc : @cont R) (g : captures) (s : string) :
  (forall pre t, s = pre ++ t -> pre <> "" -> best ok t = None ->
                 Kc t g = K t ((i, pre) :: g)) ->
  forall t pre, s = pre ++ t -> pre <> "" ->
    greedy is_digit Kc t g =
    match best0 ok t with
    | Some (w, s1) => K s1 ((i, pre ++ w) :: g)
    | None => None
    end.
Proof.
  intros HKc t. induction t as [|b t IH]; intros pre Hs Hpre.
  - simpl. rewrite HKc with (pre := pre) by easy.
    unfold best0. simpl. destruct (ok "") eqn:E.
    + now rewrite append_empty_r.
    + now apply K_fails.
  - simpl greedy. destruct (is_digit b) eqn:Eb.
    + rewrite (IH (pre ++ String b "")).
      2:{ rewrite Hs, append_assoc. reflexivity. }
      2:{ now destruct pre. }
      unfold best0 at 2. rewrite (best_cons b t Eb).
      destruct (best0 ok t) as [[w s1]|] eqn:E0.
      * rewrite or_else_some.
        -- rewrite append_assoc. reflexivity.
        -- apply K_succeeds. eapply best0_ok; eauto.
      * simpl. rewrite HKc with (pre := pre); [|assumption|assumption|].
        -- destruct (ok (String b t)) eqn:E.
           ++ now rewrite append_empty_r.
           ++ now apply K_fails.
        -- simpl. rewrite Eb. unfold best0 in E0.
           destruct (best ok t) as [[? ?]|]; [easy|]. now destruct (ok t).
    + rewrite HKc with (pre := pre); [|assumption|assumption|].
      * rewrite best0_head_out by (simpl; assumption).
        destruct (ok (String b t)) eqn:E.
        -- now rewrite append_empty_r.
        -- now apply K_fails.
      * simpl. now rewrite Eb.
Qed.

(** [(\d+)*] in front of [K]: the group takes the longest run of leading
    digits after which [K] accepts, and no part when there is none. *)
Lemma star_group_best (i : nat) (fuel : nat) (s : string) (g : captures) :
  (String.length s <= fuel)%nat ->
  star_loop (run (Group i (Plus (Class is_digit)))) K fuel s g =
  match best ok s with
  | Some (w, s1) => K s1 ((i, w) :: g)
  | None => K s g
  end.
Proof.
  revert s g. induction fuel as [|fuel IH]; intros s g Hlen.
  - destruct s; simpl in Hlen; [reflexivity | lia].
  - rewrite star_loop_S, run_group, run_plus_class.
    destruct s as [|a s]; [reflexivity|].
    destruct (is_digit a) eqn:Ea; [|simpl; now rewrite Ea].
    rewrite (greedy_best i _ g (String a s)) with (pre := String a "");
      [| |reflexivity|easy].
    + rewrite (best_cons a s Ea).
      destruct (best0 ok s) as [[w s1]|] eqn:E0; [|reflexivity].
      apply or_else_some. apply K_succeeds. eapply best0_ok; eauto.
    + intros pre t Hs Hpre Hbest.
      assert (Hlt : (String.length t < String.length (String a s))%nat).
      { rewrite Hs, length_append. destruct pre; [easy | simpl; lia]. }
      apply Nat.ltb_lt in Hlt as Hltb. rewrite Hltb.
      rewrite IH by (simpl in Hlt, Hlen; lia).
      rewrite Hbest. rewrite Hs at 1. now rewrite consumed_append.
Qed.

End ColumnCount.

(** ** decode_aseg_gdf_format, read off the text *)

Lemma tail_direct_fails (s : string) (g : captures) :
  code_ok s = false -> tail_direct s g = None.
Proof.
  destruct s as [|c [|d s]]; simpl; try reflexivity. now intros ->.
Qed.

Lemma tail_direct_succeeds (s : string) (g : captures) :
  code_ok s = true -> tail_direct s g <> None.
Proof.
  destruct s as [|c [|d s]]; simpl; try discriminate. now intros ->.
Qed.

Lemma re_match_format (s : string) :
  re_match format_pattern s =
  match best0 code_ok s with
  | Some (w, s1) => tail_direct s1 (with_run 1 w [])
  | None => None
  end.
Proof.
  unfold re_match.
  change format_pattern
    with (Seq (Star (Group 1 (Plus (Class is_digit)))) code_and_digits).
  rewrite run_seq, run_star.
  rewrite (star_group_best
             (fun s1 g1 => run code_and_digits s1 g1 accept) code_ok).
  - unfold best0. destruct (best code_ok s) as [[w s1]|] eqn:E.
    + rewrite run_code_and_digits.
      assert (w <> "") as Hw.
      { destruct s as [|a s]; [discriminate|]. simpl in E.
        destruct (is_digit a); [|discriminate].
        destruct (best code_ok s) as [[? ?]|];
          [|destruct (code_ok s)]; now inversion E. }
      now destruct w.
    + rewrite run_code_and_digits. destruct (code_ok s) eqn:E'.
      * reflexivity.
      * now apply tail_direct_fails.
  - intros s1 g1 H. rewrite run_code_and_digits. now apply tail_direct_fails.
  - intros s1 g1 H. rewrite run_code_and_digits.
    now apply tail_direct_succeeds.
  - lia.
Qed.

Lemma all_digits_int (s : string) :
  s <> "" -> all_chars is_digit s = true ->
  int_of_str s = Ok (int_digits_acc s 0).
Proof.
  intros Hs H. unfold int_of_str. destruct s; [easy|]. now rewrite H.
Qed.

Lemma group_with_run (i j : nat) (w : string) (g : captures) :
  i <> j -> group (with_run j w g) i = group g i.
Proof.
  intros H. destruct w; [reflexivity|]. simpl.
  destruct (Nat.eqb_spec i j); [contradiction | reflexivity].
Qed.

(** *** The upper case of a character *)

Lemma upper_single (c : ascii) : upper (String c "") = upper_code c.
Proof.
  cbn [upper]. destruct (upper_code c) as [u|e]; cbn [bind];
    [now rewrite append_empty_r | reflexivity].
Qed.

Lemma upper_code_ascii (c : ascii) :
  is_ascii c = true -> upper_code c = Ok (String (upper_char c) "").
Proof.
  destruct c as [[] [] [] [] [] [] [] []]; vm_compute;
    (reflexivity || discriminate).
Qed.


Lemma upper_code_no_lower (c : ascii) (code : string) :
  upper_code c = Ok code ->
  all_chars (fun x => negb (is_lower x)) code = true.
Proof.
  destruct c as [[] [] [] [] [] [] [] []]; vm_compute;
    (discriminate || (intros [= <-]; reflexivity)).
Qed.

Lemma letter_is_ascii (c : ascii) : is_letter c = true -> is_ascii c = true.
Proof.
  destruct c as [[] [] [] [] [] [] [] []]; vm_compute;
    (reflexivity || discriminate).
Qed.

Lemma digit_is_ascii (c : ascii) : is_digit c = true -> is_ascii c = true.
Proof.
  destruct c as [[] [] [] [] [] [] [] []]; vm_compute;
    (reflexivity || discriminate).
Qed.

Theorem decode_direct (s : string) :
  s <> "" ->
  decode_aseg_gdf_format s =
  match best0 code_ok s with
  | Some (w, s1) => fields_direct w s1
  | None => Raise (BaseException ("Invalid ASEG-GDF format string " ++ s))
  end.
Proof.
  intros Hs. unfold decode_aseg_gdf_format.
  destruct (String.eqb_spec s ""); [contradiction|].
  rewrite re_match_format.
  destruct (best0 code_ok s) as [[w s1]|] eqn:E; [|reflexivity].
  apply best0_ok in E as Hok.
  destruct s1 as [|c [|d s2]]; try discriminate. simpl in Hok.
  unfold tail_direct. rewrite Hok. unfold fields_direct.
  apply andb_prop in Hok as [Hc Hd].
  set (s3 := snd (span_chars is_digit s2)).
  set (s4 := snd (span_chars is_dot s3)).
  pose proof (span_chars_all is_digit s2) as H3.
  pose proof (span_chars_all is_digit s4) as H4.
  set (digits := fst (span_chars is_digit s2)) in *.
  set (fraction := fst (span_chars is_digit s4)) in *.
  assert (G1 : group (with_run 4 fraction
                        ((3%nat, String d digits) :: (2%nat, String c "")
                           :: with_run 1 w [])) 1
               = match w with EmptyString => None | _ => Some w end).
  { rewrite group_with_run by lia. simpl. now destruct w. }
  assert (G2 : group_text (with_run 4 fraction
                        ((3%nat, String d digits) :: (2%nat, String c "")
                           :: with_run 1 w [])) 2 = Ok (String c "")).
  { unfold group_text. now rewrite group_with_run by lia. }
  assert (G3 : group_text (with_run 4 fraction
                        ((3%nat, String d digits) :: (2%nat, String c "")
                           :: with_run 1 w [])) 3 = Ok (String d digits)).
  { unfold group_text. now rewrite group_with_run by lia. }
  assert (G4 : group (with_run 4 fraction
                        ((3%nat, String d digits) :: (2%nat, String c "")
                           :: with_run 1 w [])) 4
               = match fraction with
                 | EmptyString => None
                 | _ => Some fraction
                 end).
  { destruct fraction; simpl; [now destruct w | reflexivity]. }
  rewrite G1, G2, G3, G4. cbn [bind]. rewrite upper_single.
  destruct (upper_code c) as [code|e]; cbn [bind]; [|reflexivity].
  rewrite all_digits_int; [|easy|simpl; now rewrite Hd, H3].
  cbn [bind].
  destruct fraction as [|x fraction'] eqn:Ef.
  - now destruct w.
  - rewrite all_digits_int; [|easy|assumption]. now destruct w.
Qed.

(** *** The split the matcher settles on *)

Lemma best0_sound (ok : string -> bool) (s w s1 : string) :
  best0 ok s = Some (w, s1) ->
  s = w ++ s1 /\ all_chars is_digit w = true /\ ok s1 = true.
Proof.
  revert w s1. induction s as [|a s IH]; intros w s1.
  - unfold best0. simpl. destruct (ok "") eqn:E; [|discriminate].
    now intros [= <- <-].
  - destruct (is_digit a) eqn:Ea.
    + unfold best0. rewrite (best_cons ok a s Ea).
      destruct (best0 ok s) as [[w' s1']|] eqn:E.
      * intros [= <- <-]. destruct (IH _ _ eq_refl) as (-> & Hw & Hok).
        simpl. now rewrite Ea, Hw.
      * destruct (ok (String a s)) eqn:Eok; [|discriminate].
        now intros [= <- <-].
    + rewrite best0_head_out by (simpl; assumption).
      destruct (ok (String a s)) eqn:Eok; [|discriminate].
      now intros [= <- <-].
Qed.


Lemma best0_exact (ok : string -> bool) (pre t : string) :
  all_chars is_digit pre = true -> ok t = true ->
  head_in is_digit t = false ->
  best0 ok (pre ++ t) = Some (pre, t).
Proof.
  intros Hpre Hok Ht. induction pre as [|a pre IH]; simpl in *.
  - rewrite best0_head_out by assumption. now rewrite Hok.
  - apply andb_prop in Hpre as [Ha Hpre]. specialize (IH Hpre).
    unfold best0. rewrite (best_cons ok a _ Ha). now rewrite IH.
Qed.

Lemma all_chars_append (p : ascii -> bool) (a b : string) :
  all_chars p (a ++ b) = all_chars p a && all_chars p b.
Proof.
  induction a as [|c a IH]; simpl; [reflexivity|].
  now rewrite IH, andb_assoc.
Qed.

Lemma int_digits_acc_nonneg (s : string) (acc : Z) :
  0 <= acc -> 0 <= int_digits_acc s acc.
Proof.
  revert acc. induction s as [|c s IH]; intros acc H; cbn [int_digits_acc];
    [assumption|].
  apply IH. unfold digit_val. lia.
Qed.

Lemma upper_char_not_lower (c : ascii) : is_lower (upper_char c) = false.
Proof.
  destruct c as [[] [] [] [] [] [] [] []]; reflexivity.
Qed.

Lemma letter_is_word (c : ascii) :
  is_letter c = true -> is_word c = true /\ is_digit c = false.
Proof.
  destruct c as [[] [] [] [] [] [] [] []]; cbv; intuition congruence.
Qed.

Lemma code_ok_shape (s : string) :
  code_ok s = true ->
  exists c d rest,
    s = String c (String d rest) /\ is_word c = true /\ is_digit d = true.
Proof.
  destruct s as [|c [|d rest]]; simpl; try discriminate.
  intros H. apply andb_prop in H as [Hc Hd]. now exists c, d, rest.
Qed.



Lemma dot_free_no_fraction (s2 : string) :
  dot_free s2 = true ->
  fst (span_chars is_digit
         (snd (span_chars is_dot (snd (span_chars is_digit s2))))) = "".
Proof.
  intros H.
  pose proof (span_chars_append is_digit s2) as Happ.
  pose proof (span_chars_stops is_digit s2) as Hstop.
  destruct (span_chars is_digit s2) as [digits s3]. simpl in *.
  rewrite <- Happ in H. unfold dot_free in H.
  rewrite all_chars_append in H. apply andb_prop in H as [_ H].
  assert (head_in is_dot s3 = false) as Hdot.
  { destruct s3 as [|x s3]; [reflexivity|]. simpl in *.
    apply andb_prop in H as [H _]. now destruct (is_dot x). }
  rewrite (span_chars_head_out is_dot s3 Hdot). simpl.
  now rewrite (span_chars_head_out is_digit s3 Hstop).
Qed.

(** What the four fields are like whenever the function returns. *)
Lemma decode_fields (s : string) (cols : pyval) (code : string) (i f : Z) :
  decode_aseg_gdf_format s = Ok (cols, code, i, f) ->
  (exists c, is_word c = true /\ upper_code c = Ok code)
  /\ all_chars (fun c => negb (is_lower c)) code = true
  /\ 0 <= i /\ 0 <= f
  /\ (head_in is_digit s = false -> cols = PyInt 1)
  /\ (dot_free s = true -> f = 0).
Proof.
  intros Hdec.
  destruct (String.eqb_spec s "") as [->|Hs]; [discriminate|].
  rewrite (decode_direct s Hs) in Hdec.
  destruct (best0 code_ok s) as [[w s1]|] eqn:E; [|discriminate].
  apply best0_sound in E as (-> & Hw & Hok).
  apply code_ok_shape in Hok as (c & d & s2 & -> & Hc & Hd).
  cbn [fields_direct] in Hdec.
  destruct (upper_code c) as [code'|e] eqn:Eu; [|discriminate].
  cbn [bind] in Hdec. injection Hdec as <- <- <- <-.
  repeat split.
  - now exists c.
  - now apply (upper_code_no_lower c).
  - apply int_digits_acc_nonneg. unfold digit_val. lia.
  - destruct (fst (span_chars is_digit _)); [lia|].
    now apply int_digits_acc_nonneg.
  - intros Hhead. destruct w as [|a w]; [reflexivity|].
    simpl in Hhead, Hw. now rewrite Hhead in Hw.
  - intros Hdot. unfold dot_free in Hdot.
    rewrite all_chars_append in Hdot. apply andb_prop in Hdot as [_ Hdot].
    simpl in Hdot.
    apply andb_prop in Hdot as [_ Hdot]. apply andb_prop in Hdot as [_ Hdot].
    now rewrite (dot_free_no_fraction s2 Hdot).
Qed.



(** Above ASCII: e with acute (233) is a word character, and its capital
    (201) the type code; the sharp s (223) gives the type code [SS]; the
    capital of y with diaeresis (255) is beyond the model. *)
Example decode_latin1_codes :
  decode_aseg_gdf_format (String (ascii_of_nat 233) "5")
  = Ok (PyInt 1, String (ascii_of_nat 201) "", 5, 0)
  /\ decode_aseg_gdf_format (String (ascii_of_nat 223) "5")
     = Ok (PyInt 1, "SS", 5, 0)
  /\ decode_aseg_gdf_format (String (ascii_of_nat 255) "5")
     = Raise (Unmodelled "upper case beyond code point 255").
Proof. repeat split; reflexivity. Qed.

Lemma prefix_append (a b : string) : String.prefix a (a ++ b) = true.
Proof.
  induction a as [|x a IH]; simpl; [now destruct b|].
  destruct (ascii_dec x x); [assumption|contradiction].
Qed.

(** Whatever is decoded, the column count is the integer 1 or a non-empty
    run of digits that the text starts with, left as text. *)
Lemma decode_columns_form (s : string) (cols : pyval) (code : string)
  (i f : Z) :
  decode_aseg_gdf_format s = Ok (cols, code, i, f) ->
  cols = PyInt 1
  \/ exists g, cols = PyStr g /\ g <> "" /\ all_chars is_digit g = true
               /\ String.prefix g s = true.
Proof.
  intros Hdec.
  destruct (String.eqb_spec s "") as [->|Hs]; [discriminate|].
  rewrite (decode_direct s Hs) in Hdec.
  destruct (best0 code_ok s) as [[w s1]|] eqn:E; [|discriminate].
  apply best0_sound in E as (-> & Hw & Hok).
  apply code_ok_shape in Hok as (c & d & s2 & -> & Hc & Hd).
  cbn [fields_direct] in Hdec.
  destruct (upper_code c) as [code'|e]; [|discriminate].
  cbn [bind] in Hdec. injection Hdec as <- _ _ _.
  destruct w as [|a w]; [now left|]. right.
  exists (String a w). repeat split; try easy. apply prefix_append.
Qed.

(** C10. A specifier made of column digits, a letter and at least one digit
    decodes with the column digits as they stand, a text; with no column
    digits the column count is the integer 1. *)
Theorem decode_columns_unconverted (pre : string) (c d : ascii)
  (rest : string) :
  all_chars is_digit pre = true ->
  is_letter c = true ->
  is_digit d = true ->
  exists i f,
    decode_aseg_gdf_format (pre ++ String c (String d rest)) =
    Ok (match pre with EmptyString => PyInt 1 | _ => PyStr pre end,
        String (upper_char c) "", i, f).
Proof.
  intros Hpre Hc Hd. pose proof (letter_is_ascii c Hc) as Ha.
  apply letter_is_word in Hc as [Hw Hnd].
  rewrite decode_direct by now destruct pre.
  rewrite (best0_exact code_ok pre); try assumption.
  - cbn [fields_direct]. rewrite (upper_code_ascii c Ha). cbn [bind]. eauto.
  - simpl. now rewrite Hw, Hd.
Qed.

Lemma decode_columns_unconverted_witness :
  exists i f,
    decode_aseg_gdf_format "3F10.4" = Ok (PyStr "3", "F", i, f).
Proof.
  exact (decode_columns_unconverted "3" "F" "1" "0.4"
           eq_refl eq_refl eq_refl).
Defined.

(** ** variable2aseg_gdf_format *)

Lemma bind_ok {A B : Type} (m : result A) (k : A -> result B) (b : B) :
  bind m k = Ok b -> exists a, m = Ok a /\ k a = Ok b.
Proof. destruct m as [a|e]; simpl; [eauto | discriminate]. Qed.

Lemma Ok_inj {A : Type} (a b : A) : Ok a = Ok b -> a = b.
Proof. congruence. Qed.

Tactic Notation "bind_inv" hyp(H) "as" ident(a) ident(Hm) :=
  apply bind_ok in H; destruct H as (a & Hm & H).

(** The keys of [SIG_FIGS]. *)
Lemma sig_figs_keys (d : string) (entry : Z) :
  dict_get SIG_FIGS d = Some entry ->
  d = "int8" \/ d = "int16" \/ d = "int32" \/ d = "int64"
  \/ d = "float32" \/ d = "float64".
Proof.
  unfold SIG_FIGS. cbn [dict_get].
  repeat match goal with
         | |- context [String.eqb ?x d] =>
             destruct (String.eqb_spec x d) as [<-|_]; [auto 10|]
         end.
  discriminate.
Qed.

(** What a returned tuple says about the run that produced it. *)
Lemma variable2aseg_gdf_format_ok (a : ndarray) (dp : option Z)
  (r : column_format) :
  variable2aseg_gdf_format a dp = Ok r ->
  exists entry code,
    dict_get SIG_FIGS (arr_dtype a) = Some entry /\
    dict_get ASEG_DTYPE_CODE_MAPPING (arr_dtype a) = Some code /\
    digits_of a = Ok (integer_digits r) /\
    dtype r = arr_dtype a /\
    ((code = "I" /\ fractional_digits r = 0) \/
     ((code = "F" \/ code = "D") /\
      match dp, arr_aseg_gdf_format a with
      | Some hint, _ =>
          fractional_digits r = Z.min hint (entry + 1 - integer_digits r)
      | None, Some declared =>
          exists cols c i f,
            decode_aseg_gdf_format declared = Ok (cols, c, i, f) /\
            fractional_digits r = Z.min f (entry + 1 - integer_digits r + 1)
      | None, None =>
          fractional_digits r = entry + 1 - integer_digits r + 1
      end)).
Proof.
  unfold variable2aseg_gdf_format, digits_of. intros H.
  bind_inv H as cols Hcols. clear Hcols.
  bind_inv H as entry Hentry. unfold dict_item in Hentry.
  destruct (dict_get SIG_FIGS (arr_dtype a)) as [entry'|] eqn:Esig;
    [|discriminate].
  injection Hentry as ->.
  bind_inv H as least Hleast. bind_inv H as negative Hneg.
  clear Hleast Hneg.
  bind_inv H as magnitudes Hmag. rewrite Hmag. cbn [bind].
  bind_inv H as greatest Hmax. rewrite Hmax. cbn [bind].
  bind_inv H as above Habove. rewrite Habove. cbn [bind].
  bind_inv H as digits Hdigits. rewrite Hdigits.
  bind_inv H as code Hcode.
  destruct (dict_get ASEG_DTYPE_CODE_MAPPING (arr_dtype a)) as [code'|] eqn:Emap;
    [|discriminate].
  injection Hcode as ->.
  exists entry, code. split; [reflexivity|]. split; [reflexivity|].
  destruct (String.eqb_spec code "I") as [->|HnI].
  - injection H as <-. cbn. auto.
  - destruct (str_in code ["F"; "D"]) eqn:Efd.
    + bind_inv H as fd Hfd. injection H as <-.
      cbn [integer_digits dtype fractional_digits].
      split; [reflexivity|]. split; [reflexivity|]. right. split.
      * unfold str_in in Efd. cbn [existsb] in Efd.
        destruct (String.eqb_spec code "F"); [auto|].
        destruct (String.eqb_spec code "D"); [auto|discriminate].
      * destruct dp as [hint|]; [now injection Hfd as <-|].
        destruct (arr_aseg_gdf_format a) as [declared|];
          [|now injection Hfd as <-].
        bind_inv Hfd as decoded Hdecoded. destruct decoded as [[[c0 c] i] f].
        injection Hfd as <-. now exists c0, c, i, f.
    + destruct (String.eqb code "A"); [|discriminate].
      bind_inv H as widths Hwidths. now destruct widths.
Qed.

Lemma float_kind_cases (d : string) :
  float_kind d = true -> d = "float32" \/ d = "float64".
Proof.
  unfold float_kind, str_in. cbn [existsb].
  destruct (String.eqb_spec d "float32"); [auto|].
  destruct (String.eqb_spec d "float64"); [auto|discriminate].
Qed.

Lemma float_kind_code (d code : string) :
  float_kind d = true ->
  dict_get ASEG_DTYPE_CODE_MAPPING d = Some code -> code <> "I".
Proof.
  intros Hd Hcode.
  destruct (float_kind_cases d Hd) as [-> | ->];
    vm_compute in Hcode; injection Hcode as <-; discriminate.
Qed.


(** A float array is given back a tuple whenever its shape has one or two
    axes, the digit count of its greatest magnitude can be taken, and the
    declared specifier, when it is the one consulted, decodes. *)
Lemma variable2aseg_gdf_format_float_returns (a : ndarray) (dp : option Z)
  (d : Z) :
  float_kind (arr_dtype a) = true ->
  (List.length (arr_shape a) = 1 \/ List.length (arr_shape a) = 2)%nat ->
  digits_of a = Ok d ->
  (dp = None -> forall declared,
      arr_aseg_gdf_format a = Some declared ->
      is_ok (decode_aseg_gdf_format declared) = true) ->
  exists r, variable2aseg_gdf_format a dp = Ok r /\ integer_digits r = d.
Proof.
  intros Hkind Hshape Hdigits Hdecl.
  unfold variable2aseg_gdf_format.
  assert (Hcols : exists c,
             match arr_shape a with
             | [_] => Ok 1
             | [_; n] => Ok n
             | _ => Raise (BaseException
                             "Unable to handle arrays with dimensionality > 3")
             end = Ok c).
  { destruct (arr_shape a) as [|x [|y [|z l]]]; simpl in Hshape;
      try lia; eauto. }
  destruct Hcols as [c ->]. cbn [bind].
  unfold digits_of in Hdigits.
  bind_inv Hdigits as magnitudes Hmag.
  bind_inv Hdigits as greatest Hmax.
  bind_inv Hdigits as above Habove.
  assert (Hdata : exists x l, arr_data a = Floats (x :: l)).
  { unfold np_abs in Hmag. cbn [arr_data arr_dtype plain_array] in Hmag.
    destruct (arr_data a) as [l|l|l] eqn:E.
    - destruct (float_kind_cases _ Hkind) as [Hd|Hd]; rewrite Hd in Hmag;
        discriminate.
    - injection Hmag as <-. unfold nanmax in Hmax. cbn in Hmax.
      destruct l as [|x l]; [discriminate|]. eauto.
    - discriminate. }
  destruct Hdata as (x & l & Hdata).
  assert (Hmin : exists least negative,
             nanmin (plain_array (arr_shape a) (arr_dtype a) (arr_data a))
             = Ok least /\ lt_zero least = Ok negative).
  { unfold nanmin. cbn [arr_data plain_array]. rewrite Hdata.
    eexists _, _. split; reflexivity. }
  destruct Hmin as (least & negative & -> & Hneg).
  destruct (float_kind_cases _ Hkind) as [Hd|Hd]; rewrite Hd in *;
    cbn [dict_item dict_get SIG_FIGS String.eqb Ascii.eqb Bool.eqb bind];
    rewrite Hneg, Hmag; cbn [bind]; rewrite Hmax; cbn [bind];
    rewrite Habove; cbn [bind]; rewrite Hdigits;
    cbn [bind dict_get ASEG_DTYPE_CODE_MAPPING String.eqb Ascii.eqb Bool.eqb
           str_in existsb orb];
    (destruct dp as [hint|];
     [cbn [bind]; eexists; split; reflexivity|]);
    (destruct (arr_aseg_gdf_format a) as [declared|] eqn:Edecl;
     [|cbn [bind]; eexists; split; reflexivity]);
    specialize (Hdecl eq_refl declared eq_refl);
    (destruct (decode_aseg_gdf_format declared) as [[[[c0 c1] i] f]|e];
     [|discriminate]);
    cbn [bind]; eexists; split; reflexivity.
Qed.

(** Where the count of fractional digits needs no clamp. In every tuple
    returned, fractional_digits is 0 when the dtype is an integer one; no
    text array gets a tuple; and for a float dtype fractional_digits is
    non-negative provided the hint, when given, is non-negative and
    integer_digits does not exceed sig_figs, the entry of the dtype in
    [SIG_FIGS] plus one, or sig_figs plus one when no hint is given. *)
Lemma fractional_digits_sign (a : ndarray) (decimal_places : option Z)
  (r : column_format) :
  variable2aseg_gdf_format a decimal_places = Ok r ->
  (dict_get ASEG_DTYPE_CODE_MAPPING (arr_dtype a) = Some "I" ->
   fractional_digits r = 0)
  /\ dict_get ASEG_DTYPE_CODE_MAPPING (arr_dtype a) <> Some "A"
  /\ (float_kind (arr_dtype a) = true ->
      (forall hint, decimal_places = Some hint -> 0 <= hint) ->
      (forall entry, dict_get SIG_FIGS (arr_dtype a) = Some entry ->
                     integer_digits r
                     <= entry + 1
                        + match decimal_places with
                          | Some _ => 0
                          | None => 1
                          end) ->
      0 <= fractional_digits r).
Proof.
  intros H.
  apply variable2aseg_gdf_format_ok in H
    as (entry & code & Hentry & Hcode & _ & _ & Hcases).
  split; [|split].
  - intros HI. rewrite Hcode in HI. injection HI as ->.
    destruct Hcases as [[_ Hz]|[[Hc|Hc] _]]; [assumption | discriminate..].
  - rewrite Hcode. intros [= ->].
    destruct Hcases as [[Hc _]|[[Hc|Hc] _]]; discriminate.
  - intros Hkind Hhint Hdigits. specialize (Hdigits entry Hentry).
    destruct Hcases as [[-> _]|[_ Hfd]];
      [now apply float_kind_code in Hcode|].
    destruct decimal_places as [hint|].
    + specialize (Hhint hint eq_refl). lia.
    + destruct (arr_aseg_gdf_format a) as [declared|]; [|lia].
      destruct Hfd as (cols & c & i & f & Hdec & ->).
      destruct (decode_fields _ _ _ _ _ Hdec) as (_ & _ & _ & Hf & _). lia.
Qed.

(** ** The count of integer digits *)









Lemma int_bits_pos (d : string) (bits : Z) :
  int_bits d = Some bits -> 0 < bits.
Proof.
  unfold int_bits.
  repeat match goal with
         | |- context [String.eqb d ?x] => destruct (String.eqb d x)
         end; intros [= <-]; lia.
Qed.

Lemma wrap_small (bits z : Z) :
  0 < bits -> - 2 ^ (bits - 1) <= z < 2 ^ (bits - 1) -> wrap bits z = z.
Proof.
  intros Hb Hz. unfold wrap.
  replace (2 ^ bits) with (2 * 2 ^ (bits - 1)).
  - rewrite Z.mod_small; lia.
  - replace bits with ((bits - 1) + 1) at 2 by lia.
    rewrite Z.pow_add_r by lia. lia.
Qed.




(** ** aseg_gdf_format2dtype *)

(** The search itself is the one C1 describes: the dtype it stops at is the
    first of its family, in the order of the table, whose entry is at least
    the digits asked for. *)
Lemma first_wide_enough_spec (items : list (string * Z)) (family : string)
  (digits : Z) (name : string) :
  first_wide_enough items family digits = DtypeName name ->
  exists before cap after,
    items = (before ++ (name, cap) :: after)%list
    /\ startswith name family = true
    /\ digits <= cap
    /\ forall d c, In (d, c) before -> startswith d family = true ->
                   c < digits.
Proof.
  induction items as [|[d0 c0] items IH]; [discriminate|].
  cbn [first_wide_enough].
  destruct (startswith d0 family && (c0 >=? digits)) eqn:E.
  - intros [= <-]. apply andb_prop in E as [Hf Hc].
    exists [], c0, items. repeat split; [assumption|lia|easy].
  - intros H. destruct (IH H) as (before & cap & after & -> & Hf & Hc & Hb).
    exists ((d0, c0) :: before), cap, after. repeat split; try assumption.
    intros d c [[= <- <-]|Hin] Hd; [|eauto].
    rewrite Hd in E. simpl in E. lia.
Qed.

(** Whatever the function returns, the dtype is the class [str]: no numeric
    type code gets past the final [else]. *)
Lemma aseg_gdf_format2dtype_returns_str (s : string) (d : dtype_value)
  (cols : pyval) (i f : Z) :
  aseg_gdf_format2dtype s = Ok (d, cols, i, f) -> d = DtypeStrClass.
Proof.
  unfold aseg_gdf_format2dtype. intros H.
  bind_inv H as decoded Hdecoded. destruct decoded as [[[c0 code] i0] f0].
  cbv zeta in H. bind_inv H as d1 Hd1. bind_inv H as d2 Hd2.
  apply Ok_inj in H. injection H as <- _ _ _.
  destruct (String.eqb code "A"); [|discriminate].
  bind_inv Hd2 as u Hu. now apply Ok_inj in Hd2.
Qed.

(** C1, the code at the specifier I5. The search through [SIG_FIGS] settles
    on int32, as the claim says, and the function then raises instead of
    returning it: the test for the type code A is an [if] of its own, whose
    [else] catches every other code. *)
Theorem aseg_gdf_format2dtype_I5 :
  first_wide_enough SIG_FIGS "int" 5 = DtypeName "int32"
  /\ aseg_gdf_format2dtype "I5"
     = Raise (BaseException "Unhandled ASEG-GDF dtype code I").
Proof. split; reflexivity. Qed.

Example f8388608_4_parsed : float_of_str "8388608.4" = Ok f8388608_4.
Proof. reflexivity. Qed.

Example f1_23_parsed : float_of_str "1.23" = Ok f1_23.
Proof. reflexivity. Qed.

Example fm4_5_parsed : float_of_str "-4.5" = Ok fm4_5.
Proof. reflexivity. Qed.

Example f100_parsed : float_of_str "100." = Ok f100.
Proof. reflexivity. Qed.

Example three_billion32_rounded :
  round_to (24, 128) (float_of_Z binary64 3000000000) = three_billion32.
Proof. reflexivity. Qed.

(** The scenarios of the specification. *)
Example scenario_three_floats :
  variable2aseg_gdf_format (float64_array [f1_23; fm4_5; f100]) None
  = Ok {| aseg_gdf_format := "D3.19"; dtype := "float64"; columns := 1;
          integer_digits := 3; fractional_digits := 19;
          python_format := "{:24.19f}" |}.
Proof. reflexivity. Qed.

Example scenario_reduces_to_int32 :
  fix_field_precision (int64_array [100000; 200000]) "int64" 0 None
  = Ok (Some {| new_format :=
                  {| aseg_gdf_format := "I6"; dtype := "int32"; columns := 1;
                     integer_digits := 6; fractional_digits := 0;
                     python_format := "{:6.0f}" |};
                new_fill_value := None |}).
Proof. reflexivity. Qed.

Example scenario_does_not_reduce :
  fix_field_precision (int64_array [3000000000]) "int64" 0 None = Ok None.
Proof. reflexivity. Qed.

(** ** fix_field_precision on its failing inputs *)

(** C2, the code at the int64 array [9223372036854775807, 200]. The
    difference with the int16 copy, [2 ^ 63], wraps round to the least int64,
    whose absolute value is itself and so below every threshold: int16 is
    returned though the first element, narrowed, is -1. *)
Theorem fix_field_precision_overflow :
  exists r narrowed,
    fix_field_precision (int64_array [int64_max; 200]) "int64" 0 None
    = Ok (Some r)
    /\ dtype (new_format r) = "int16"
    /\ astype (int64_array [int64_max; 200]) "int16" = Ok narrowed
    /\ arr_data narrowed = Ints [-1; 200]
    /\ pow10_neg 0 = SInt 1
    /\ 1 <= Z.abs (int64_max - -1).
Proof.
  do 2 eexists. repeat split; try (vm_compute; reflexivity).
  vm_compute. discriminate.
Qed.

(** C3, the code at the float64 array [8388608.0, 8388608.4] with fill value
    8388608.0 and no fractional digit. Only the first element is no-data;
    float32 is returned with the fill value 8388608.0, and the second
    element, narrowed, is 8388608.0 too: the search for ambiguity looks at
    the array before narrowing. *)
Theorem fill_value_collides :
  exists r narrowed fill,
    fix_field_precision (float64_array [f8388608; f8388608_4]) "float64" 0
      (Some (SFloat f8388608)) = Ok (Some r)
    /\ dtype (new_format r) = "float32"
    /\ array_eq (float64_array [f8388608; f8388608_4]) (SFloat f8388608)
       = Ok [true; false]
    /\ astype (float64_array [f8388608; f8388608_4]) "float32" = Ok narrowed
    /\ new_fill_value r = Some fill
    /\ array_eq narrowed fill = Ok [true; true].
Proof. do 3 eexists. repeat split; vm_compute; reflexivity. Qed.

(** C8, the code at the int64 array [1]: int8, the first dtype tried, holds
    the value, and [variable2aseg_gdf_format] has no type code for int8. *)
Theorem fix_field_precision_raises :
  fix_field_precision (int64_array [1]) "int64" 0 None
  = Raise (AssertionError "Unhandled dtype int8").
Proof. reflexivity. Qed.

(** The rest of C8 holds where it is tried: an integer fill value has no
    dot for the truncation pattern to find, the failure is swallowed and the
    fill value stays. *)
Example truncation_failure_keeps_fill_value :
  truncate_fill_value (int64_array [300; -9999; 200]) [false; true; false]
    4 0 (SInt (-9999))
  = Raise (AttributeError "'NoneType' object has no attribute 'group'")
  /\ fix_field_precision (int64_array [300; -9999; 200]) "int64" 0
       (Some (SInt (-9999)))
     = Ok (Some {| new_format :=
                     {| aseg_gdf_format := "I4"; dtype := "int16";
                        columns := 1; integer_digits := 4;
                        fractional_digits := 0;
                        python_format := "{:5.0f}" |};
                   new_fill_value := Some (SInt (-9999)) |}).
Proof. split; reflexivity. Qed.

(** ** Text arrays *)

(** No array whose dtype has the type code A is given a tuple. *)
Lemma text_kind_raises (a : ndarray) (decimal_places : option Z) :
  dict_get ASEG_DTYPE_CODE_MAPPING (arr_dtype a) = Some "A" ->
  exists e, variable2aseg_gdf_format a decimal_places = Raise e.
Proof.
  intros HA.
  destruct (variable2aseg_gdf_format a decimal_places) as [r|e] eqn:E;
    [|eauto].
  apply variable2aseg_gdf_format_ok in E
    as (entry & code & _ & Hcode & _ & _ & Hcases).
  rewrite HA in Hcode. injection Hcode as <-.
  destruct Hcases as [[Hc _]|[[Hc|Hc] _]]; discriminate.
Qed.

(** C9, the code at a text array, with and without a declared specifier:
    [SIG_FIGS] has no entry for [str], and the lookup raises before the
    branch for text is reached. *)
Theorem text_array_raises :
  variable2aseg_gdf_format (text_array (Some "A10")) None
  = Raise (KeyError "str")
  /\ variable2aseg_gdf_format (text_array None) None = Raise (KeyError "str").
Proof. split; reflexivity. Qed.

(** ** Counterexamples and witnesses *)


(** At a power of ten the count is exact: 999 + 1.0 needs three digits.
    Next to one the rounding of the logarithm decides, and no tuple is
    given: [log10(10 ** 15 + 1.0)] is [15.0] in Python, one digit short. *)
Example digits_at_powers_of_ten :
  variable2aseg_gdf_format (int64_array [999]) None
  = Ok {| aseg_gdf_format := "I3"; dtype := "int64"; columns := 1;
          integer_digits := 3; fractional_digits := 0;
          python_format := "{:3.0f}" |}
  /\ variable2aseg_gdf_format (int64_array [1000000000000000]) None
     = Raise (Unmodelled "log10 within a rounding of an integer").
Proof. split; reflexivity. Qed.


(** C7, the code at the float32 array [3000000000.0] with a hint of two
    decimal places: ten integer digits against a sig_figs of eight, and no
    clamp at zero. The tuple returned has fractional_digits -2, the
    specifier F10.-2 and the Python format with precision -2, which
    [str.format] refuses. *)
Theorem fractional_digits_negative :
  variable2aseg_gdf_format (plain_array [1] "float32" (Floats [three_billion32]))
    (Some 2)
  = Ok {| aseg_gdf_format := "F10.-2"; dtype := "float32"; columns := 1;
          integer_digits := 10; fractional_digits := -2;
          python_format := "{:9.-2f}" |}
  /\ ~ fractional_digits_never_negative.
Proof.
  split; [reflexivity|]. intros H.
  specialize (H (plain_array [1] "float32" (Floats [three_billion32])) (Some 2)
                _ eq_refl).
  now vm_compute in H.
Qed.

Lemma fractional_digits_sign_witness :
  exists r,
    variable2aseg_gdf_format (float64_array [f1_23; fm4_5; f100]) (Some 4)
    = Ok r
    /\ fractional_digits r = 4
    /\ 0 <= fractional_digits r.
Proof.
  eexists. split; [reflexivity|]. split; [reflexivity|].
  refine (proj2 (proj2 (fractional_digits_sign
                          (float64_array [f1_23; fm4_5; f100]) (Some 4) _
                          eq_refl)) eq_refl _ _).
  - intros hint [= <-]. discriminate.
  - intros entry [= <-]. discriminate.
Defined.


(** * Further properties *)

(** ** Decimal text of an integer *)

Lemma string_of_uint_digits (u : Decimal.uint) :
  all_chars is_digit (NilEmpty.string_of_uint u) = true.
Proof. induction u; simpl; auto. Qed.

Lemma int_digits_acc_uint (u : Decimal.uint) (acc : N) :
  int_digits_acc (NilEmpty.string_of_uint u) (Z.of_N acc)
  = Z.of_N (acc * 10 ^ DecimalPos.Unsigned.usize u
            + DecimalPos.Unsigned.of_lu (Decimal.rev u)).
Proof.
  revert acc.
  induction u; intros acc;
    [ simpl; f_equal; lia | .. ];
    cbn [NilEmpty.string_of_uint int_digits_acc DecimalPos.Unsigned.usize];
    unfold Decimal.rev; cbn [Decimal.revapp];
    rewrite DecimalPos.Unsigned.of_lu_revapp;
    match goal with
    | |- context [digit_val ?c] =>
        let v := eval vm_compute in (digit_val c) in
        change (digit_val c) with v;
        replace (10 * Z.of_N acc + v) with (Z.of_N (10 * acc + Z.to_N v))
          by lia
    end;
    rewrite IHu; f_equal; rewrite N.pow_succ_r';
    match goal with
    | |- context [DecimalPos.Unsigned.of_lu (?D Decimal.Nil)] =>
        let w := eval vm_compute in (DecimalPos.Unsigned.of_lu (D Decimal.Nil)) in
        change (DecimalPos.Unsigned.of_lu (D Decimal.Nil)) with w
    end;
    unfold Decimal.rev; lia.
Qed.

Lemma str_of_Z_pos (p : positive) :
  all_chars is_digit (str_of_Z (Zpos p)) = true
  /\ str_of_Z (Zpos p) <> ""
  /\ int_digits_acc (str_of_Z (Zpos p)) 0 = Zpos p.
Proof.
  unfold str_of_Z. cbn [Z.to_int NilZero.string_of_int].
  pose proof (DecimalPos.Unsigned.to_uint_nonnil p) as Hnil.
  assert (NilZero.string_of_uint (Pos.to_uint p)
          = NilEmpty.string_of_uint (Pos.to_uint p)) as ->.
  { now destruct (Pos.to_uint p). }
  split; [apply string_of_uint_digits|]. split.
  - now destruct (Pos.to_uint p).
  - change 0 with (Z.of_N 0). rewrite int_digits_acc_uint.
    rewrite <- DecimalPos.Unsigned.of_uint_alt, DecimalPos.Unsigned.of_to.
    now rewrite N.mul_0_l.
Qed.

(** The text of a non-negative integer is a non-empty run of digits that
    reads back as the integer. *)
Lemma str_of_Z_nonneg (n : Z) :
  0 <= n ->
  all_chars is_digit (str_of_Z n) = true
  /\ str_of_Z n <> ""
  /\ int_digits_acc (str_of_Z n) 0 = n.
Proof.
  intros H. destruct n as [|p|p]; [now vm_compute | apply str_of_Z_pos | lia].
Qed.

(** ** Specifiers written out and read back *)

Lemma digit_not_dot (c : ascii) : is_digit c = true -> is_dot c = false.
Proof. destruct c as [[] [] [] [] [] [] [] []]; cbv; congruence. Qed.

Lemma head_digit_not_dot (s : string) :
  all_chars is_digit s = true -> head_in is_dot s = false.
Proof.
  destruct s as [|c s]; [easy|]. simpl. intros H.
  apply andb_prop in H as [H _]. now apply digit_not_dot.
Qed.

Lemma span_chars_whole (p : ascii -> bool) (s : string) :
  all_chars p s = true -> span_chars p s = (s, "").
Proof.
  intros H. rewrite <- (append_empty_r s) at 1.
  now apply span_chars_run.
Qed.

(** A specifier assembled from column digits, a letter, integer digits and,
    after a dot, fraction digits decodes to exactly these parts. *)
Lemma decode_specifier_text (pre : string) (c : ascii)
  (digits fraction : string) :
  all_chars is_digit pre = true ->
  is_letter c = true ->
  digits <> "" -> all_chars is_digit digits = true ->
  all_chars is_digit fraction = true ->
  decode_aseg_gdf_format (pre ++ String c (digits ++ "." ++ fraction))
  = Ok (match pre with EmptyString => PyInt 1 | _ => PyStr pre end,
        String (upper_char c) "",
        int_digits_acc digits 0,
        match fraction with
        | EmptyString => 0
        | _ => int_digits_acc fraction 0
        end).
Proof.
  intros Hpre Hc Hne Hdigits Hfraction.
  pose proof (letter_is_ascii c Hc) as Ha.
  apply letter_is_word in Hc as [Hw Hnd].
  destruct digits as [|d digits]; [easy|]. simpl in Hdigits.
  apply andb_prop in Hdigits as [Hd Hdigits].
  rewrite decode_direct by now destruct pre.
  rewrite (best0_exact code_ok pre); try assumption.
  - cbn [append fields_direct].
    rewrite (span_chars_run is_digit digits (String "." fraction)) by easy.
    cbn [fst snd].
    change (String "." fraction) with ("." ++ fraction).
    rewrite (span_chars_run is_dot "." fraction)
      by (try reflexivity; now apply head_digit_not_dot).
    cbn [fst snd].
    rewrite (span_chars_whole is_digit fraction) by assumption.
    now rewrite (upper_code_ascii c Ha).
  - simpl. now rewrite Hw, Hd.
Qed.

(** The same with no dot: the fraction is 0. *)
Lemma decode_specifier_text_whole (pre : string) (c : ascii)
  (digits : string) :
  all_chars is_digit pre = true ->
  is_letter c = true ->
  digits <> "" -> all_chars is_digit digits = true ->
  decode_aseg_gdf_format (pre ++ String c digits)
  = Ok (match pre with EmptyString => PyInt 1 | _ => PyStr pre end,
        String (upper_char c) "", int_digits_acc digits 0, 0).
Proof.
  intros Hpre Hc Hne Hdigits.
  pose proof (letter_is_ascii c Hc) as Ha.
  apply letter_is_word in Hc as [Hw Hnd].
  destruct digits as [|d digits]; [easy|]. simpl in Hdigits.
  apply andb_prop in Hdigits as [Hd Hdigits].
  rewrite decode_direct by now destruct pre.
  rewrite (best0_exact code_ok pre); try assumption.
  - cbn [fields_direct].
    rewrite (span_chars_whole is_digit digits) by assumption.
    now rewrite (upper_code_ascii c Ha).
  - simpl. now rewrite Hw, Hd.
Qed.

(** X1. Decoding reads decimal numbers: a specifier written as column
    digits, a letter, the decimal text of [n], a dot and the decimal text of
    [m] decodes to the column digits as text (the integer 1 when there are
    none), the letter in upper case, [n] and [m]. *)
Theorem decode_reads_numbers (pre : string) (c : ascii) (n m : Z) :
  all_chars is_digit pre = true ->
  is_letter c = true ->
  0 <= n -> 0 <= m ->
  decode_aseg_gdf_format
    (pre ++ String c (str_of_Z n ++ "." ++ str_of_Z m))
  = Ok (match pre with EmptyString => PyInt 1 | _ => PyStr pre end,
        String (upper_char c) "", n, m).
Proof.
  intros Hpre Hc Hn Hm.
  destruct (str_of_Z_nonneg n Hn) as (Hdn & Hnn & Hvn).
  destruct (str_of_Z_nonneg m Hm) as (Hdm & Hnm & Hvm).
  rewrite decode_specifier_text by assumption.
  rewrite Hvn, Hvm. now destruct (str_of_Z m).
Qed.

Lemma decode_reads_numbers_witness :
  decode_aseg_gdf_format ("12" ++ String "f" (str_of_Z 10 ++ "." ++ str_of_Z 4))
  = Ok (PyStr "12", "F", 10, 4).
Proof.
  exact (decode_reads_numbers "12" "f" 10 4 eq_refl eq_refl
           ltac:(discriminate) ltac:(discriminate)).
Defined.

(** ** The tuple of [variable2aseg_gdf_format] *)

Lemma min_lt_zero (l : list Z) (x : Z) :
  (fold_left Z.min l x <? 0) = (x <? 0) || existsb (fun z => z <? 0) l.
Proof.
  revert x. induction l as [|y l IH]; intros x; cbn [fold_left existsb].
  - now rewrite orb_false_r.
  - rewrite IH, orb_assoc. f_equal.
    destruct (Z.ltb_spec x 0), (Z.ltb_spec y 0), (Z.ltb_spec (Z.min x y) 0);
      try reflexivity; lia.
Qed.

Lemma fmin_lt_zero (x y : spec_float) :
  SFltb (fmin x y) (S754_zero false)
  = SFltb x (S754_zero false) || SFltb y (S754_zero false).
Proof.
  unfold fmin, SFltb.
  destruct x as [[]|[]| |[] mx ex], y as [[]|[]| |[] my ey];
    cbn; try reflexivity;
    destruct (ey ?= ex); try reflexivity;
    destruct (Pos.compare_cont Eq my mx); reflexivity.
Qed.

Lemma fmin_fold_lt_zero (l : list spec_float) (x : spec_float) :
  SFltb (fold_left fmin l x) (S754_zero false)
  = SFltb x (S754_zero false)
    || existsb (fun y => SFltb y (S754_zero false)) l.
Proof.
  revert x. induction l as [|y l IH]; intros x; cbn [fold_left existsb].
  - now rewrite orb_false_r.
  - now rewrite IH, fmin_lt_zero, orb_assoc.
Qed.

(** The least element is below zero exactly when some element is. *)
Lemma nanmin_negative (shape : list Z) (d : string) (v : values)
  (least : scalar) (negative : bool) :
  nanmin (plain_array shape d v) = Ok least ->
  lt_zero least = Ok negative ->
  negative = any_negative v.
Proof.
  unfold nanmin. cbn [arr_data plain_array].
  destruct v as [[|x l]|[|x l]|l]; try discriminate;
    intros [= <-]; cbn [lt_zero any_negative existsb]; intros [= <-].
  - apply min_lt_zero.
  - apply fmin_fold_lt_zero.
Qed.

(** Every part of a returned tuple, from the array. *)
Lemma variable2aseg_gdf_format_tuple (a : ndarray) (dp : option Z)
  (r : column_format) :
  variable2aseg_gdf_format a dp = Ok r ->
  exists code,
    dict_get ASEG_DTYPE_CODE_MAPPING (arr_dtype a) = Some code
    /\ shape_columns (arr_shape a) = Some (columns r)
    /\ dtype r = arr_dtype a
    /\ let sign := if any_negative (arr_data a) then 1 else 0 in
       ((code = "I"
         /\ fractional_digits r = 0
         /\ aseg_gdf_format r
            = column_prefix (columns r) ++ "I" ++ str_of_Z (integer_digits r)
         /\ python_format r = float_template (sign + integer_digits r) 0)
        \/ ((code = "F" \/ code = "D")
            /\ aseg_gdf_format r
               = column_prefix (columns r) ++ code
                   ++ str_of_Z (integer_digits r) ++ "."
                   ++ str_of_Z (fractional_digits r)
            /\ python_format r
               = float_template
                   (sign + integer_digits r + fractional_digits r + 1)
                   (fractional_digits r))).
Proof.
  unfold variable2aseg_gdf_format. intros H.
  bind_inv H as cols Hcols.
  assert (Hshape : shape_columns (arr_shape a) = Some cols).
  { unfold shape_columns.
    destruct (arr_shape a) as [|x [|y [|z l]]]; try discriminate;
      now injection Hcols as <-. }
  clear Hcols.
  bind_inv H as entry Hentry. clear Hentry.
  bind_inv H as least Hleast. bind_inv H as negative Hneg.
  rewrite (nanmin_negative _ _ _ _ _ Hleast Hneg) in H. clear Hleast Hneg.
  bind_inv H as magnitudes Hmag. bind_inv H as greatest Hmax.
  bind_inv H as above Habove. bind_inv H as digits Hdigits.
  clear Hmag Hmax Habove Hdigits.
  bind_inv H as code Hcode.
  destruct (dict_get ASEG_DTYPE_CODE_MAPPING (arr_dtype a)) as [code'|];
    [|discriminate].
  injection Hcode as ->. exists code. split; [reflexivity|].
  assert (Hpre : forall body,
             (if cols >? 1 then str_of_Z cols ++ body else body)
             = column_prefix cols ++ body).
  { intros body. unfold column_prefix. now destruct (cols >? 1). }
  destruct (String.eqb_spec code "I") as [HI|HnI].
  - apply Ok_inj in H. subst r.
    cbn [columns dtype fractional_digits integer_digits aseg_gdf_format
         python_format].
    rewrite Hpre. auto 10.
  - destruct (str_in code ["F"; "D"]) eqn:Efd.
    + bind_inv H as fd Hfd. clear Hfd. apply Ok_inj in H. subst r.
      cbn [columns dtype fractional_digits integer_digits aseg_gdf_format
           python_format].
      rewrite Hpre. split; [assumption|]. split; [reflexivity|].
      right. split; [|split; reflexivity].
      unfold str_in in Efd. cbn [existsb] in Efd.
      destruct (String.eqb_spec code "F"); [auto|].
      destruct (String.eqb_spec code "D"); [auto|discriminate].
    + destruct (String.eqb code "A"); [|discriminate].
      bind_inv H as widths Hwidths. now destruct widths.
Qed.

(** The dtypes with a type code I, F or D. *)
Lemma numeric_code_dtypes (d code : string) :
  dict_get ASEG_DTYPE_CODE_MAPPING d = Some code ->
  code = "I" \/ code = "F" \/ code = "D" ->
  (code = "I" /\ (d = "int16" \/ d = "int32" \/ d = "int64"))
  \/ (code = "F" /\ d = "float32")
  \/ (code = "D" /\ d = "float64").
Proof.
  unfold ASEG_DTYPE_CODE_MAPPING. cbn [dict_get].
  repeat match goal with
         | |- context [String.eqb ?x d] =>
             destruct (String.eqb_spec x d) as [<-|_];
             [intros [= <-]; intros [H|[H|H]]; try discriminate H; auto 10|]
         end.
  discriminate.
Qed.

(** X2. A tuple is returned only for an array of dtype int16, int32, int64,
    float32 or float64 with one or two axes; its dtype is the dtype of the
    array and its column count is 1 for one axis and the length of the
    second axis for two. *)
Theorem variable2aseg_gdf_format_accepts (a : ndarray)
  (decimal_places : option Z) (r : column_format) :
  variable2aseg_gdf_format a decimal_places = Ok r ->
  In (arr_dtype a) ["int16"; "int32"; "int64"; "float32"; "float64"]%list
  /\ dtype r = arr_dtype a
  /\ shape_columns (arr_shape a) = Some (columns r).
Proof.
  intros H.
  apply variable2aseg_gdf_format_tuple in H
    as (code & Hcode & Hshape & Hdtype & Hcases).
  split; [|now split].
  assert (Hc : code = "I" \/ code = "F" \/ code = "D")
    by (destruct Hcases as [[-> _]|[[->| ->] _]]; auto).
  destruct (numeric_code_dtypes _ _ Hcode Hc)
    as [[_ [->|[->| ->]]]|[[_ ->]|[_ ->]]]; cbn; auto 10.
Qed.

Lemma variable2aseg_gdf_format_accepts_witness :
  In "float64" ["int16"; "int32"; "int64"; "float32"; "float64"]%list
  /\ shape_columns [3] = Some 1.
Proof.
  destruct (variable2aseg_gdf_format_accepts
              (float64_array [f1_23; fm4_5; f100]) None _ eq_refl)
    as (Hin & _ & Hshape).
  split; [exact Hin | exact Hshape].
Defined.

(** X3. The width of the Python format counts one character for a sign
    exactly when some element of the array is below zero (a NaN is not): it
    is that character plus integer_digits for an integer dtype, and plus
    integer_digits, fractional_digits and the point for a float dtype. *)
Theorem python_format_width (a : ndarray) (decimal_places : option Z)
  (r : column_format) :
  variable2aseg_gdf_format a decimal_places = Ok r ->
  let sign := if any_negative (arr_data a) then 1 else 0 in
  python_format r
  = if float_kind (arr_dtype a)
    then float_template
           (sign + integer_digits r + fractional_digits r + 1)
           (fractional_digits r)
    else float_template (sign + integer_digits r) 0.
Proof.
  intros H.
  apply variable2aseg_gdf_format_tuple in H
    as (code & Hcode & _ & _ & Hcases).
  assert (Hc : code = "I" \/ code = "F" \/ code = "D")
    by (destruct Hcases as [[-> _]|[[->| ->] _]]; auto).
  cbv zeta in *.
  destruct (numeric_code_dtypes _ _ Hcode Hc)
    as [[-> [->|[->| ->]]]|[[-> ->]|[-> ->]]];
    destruct Hcases as [(Hi & _ & _ & Hp)|(Hfd & _ & Hp)];
    try discriminate Hi; try (destruct Hfd; discriminate);
    exact Hp.
Qed.

Lemma python_format_width_witness :
  python_format
    {| aseg_gdf_format := "D3.19"; dtype := "float64"; columns := 1;
       integer_digits := 3; fractional_digits := 19;
       python_format := "{:24.19f}" |}
  = float_template (1 + 3 + 19 + 1) 19.
Proof.
  exact (python_format_width (float64_array [f1_23; fm4_5; f100]) None _
           eq_refl).
Defined.

(** X4. Round trip: the specifier of a returned tuple, decoded, gives back
    the type code of the dtype, integer_digits and fractional_digits of the
    tuple, and its column count as text (the integer 1 when the count is not
    above 1), as long as neither digit count is negative. *)
Theorem specifier_round_trip (a : ndarray) (decimal_places : option Z)
  (r : column_format) :
  variable2aseg_gdf_format a decimal_places = Ok r ->
  0 <= integer_digits r -> 0 <= fractional_digits r ->
  exists code,
    dict_get ASEG_DTYPE_CODE_MAPPING (dtype r) = Some code
    /\ decode_aseg_gdf_format (aseg_gdf_format r)
       = Ok (columns_decoded (columns r), code,
             integer_digits r, fractional_digits r).
Proof.
  intros H Hi Hf.
  apply variable2aseg_gdf_format_tuple in H
    as (code & Hcode & _ & Hdtype & Hcases).
  exists code. rewrite Hdtype. split; [assumption|].
  destruct (str_of_Z_nonneg _ Hi) as (Hdi & Hni & Hvi).
  destruct (str_of_Z_nonneg _ Hf) as (Hdf & Hnf & Hvf).
  assert (Hpre : all_chars is_digit (column_prefix (columns r)) = true
                 /\ match column_prefix (columns r) with
                    | EmptyString => PyInt 1
                    | _ => PyStr (column_prefix (columns r))
                    end = columns_decoded (columns r)).
  { unfold column_prefix, columns_decoded.
    destruct (Z.gtb_spec (columns r) 1) as [Hc|Hc]; [|now split].
    destruct (str_of_Z_nonneg (columns r)) as (Hd & Hn & _); [lia|].
    split; [assumption|]. now destruct (str_of_Z (columns r)). }
  destruct Hpre as [Hpd Hpv]. cbv zeta in Hcases.
  destruct Hcases as [(-> & Hz & -> & _)|(Hfd & -> & _)].
  - change ("I" ++ str_of_Z (integer_digits r))
      with (String "I" (str_of_Z (integer_digits r))).
    rewrite decode_specifier_text_whole by (assumption || reflexivity).
    now rewrite Hpv, Hvi, Hz.
  - assert (exists c, code = String c "" /\ is_letter c = true
                      /\ upper_char c = c) as (c & -> & Hc & Hu)
      by (destruct Hfd as [->| ->]; eexists; repeat split).
    change (String c "" ++ str_of_Z (integer_digits r) ++ "."
              ++ str_of_Z (fractional_digits r))
      with (String c (str_of_Z (integer_digits r) ++ "."
                        ++ str_of_Z (fractional_digits r))).
    rewrite decode_specifier_text by assumption.
    rewrite Hpv, Hvi, Hvf, Hu.
    now destruct (str_of_Z (fractional_digits r)).
Qed.

Lemma specifier_round_trip_witness :
  exists code,
    dict_get ASEG_DTYPE_CODE_MAPPING "float64" = Some code
    /\ decode_aseg_gdf_format "D3.19" = Ok (PyInt 1, code, 3, 19).
Proof.
  exact (specifier_round_trip (float64_array [f1_23; fm4_5; f100]) None _
           eq_refl ltac:(discriminate) ltac:(discriminate)).
Defined.

(** ** aseg_gdf_format2dtype, outcome by outcome *)

Lemma int_search_truthy (digits : Z) :
  dtype_truthy (first_wide_enough SIG_FIGS "int" digits) = (digits <=? 19).
Proof.
  unfold SIG_FIGS.
  cbn [first_wide_enough startswith String.prefix Ascii.eqb Bool.eqb andb].
  repeat match goal with
         | |- context [?c >=? digits] =>
             destruct (Z.geb_spec c digits); [cbn; symmetry; lia|]
         end.
  cbn. symmetry. lia.
Qed.

Lemma float_search_truthy (digits : Z) :
  dtype_truthy (first_wide_enough SIG_FIGS "float" digits) = (digits <=? 20).
Proof.
  unfold SIG_FIGS.
  cbn [first_wide_enough startswith String.prefix Ascii.eqb Bool.eqb andb].
  repeat match goal with
         | |- context [?c >=? digits] =>
             destruct (Z.geb_spec c digits); [cbn; symmetry; lia|]
         end.
  cbn. symmetry. lia.
Qed.

(** X5. The function returns exactly for the specifiers that decode to the
    type code A with no fractional digits, and then gives the class [str]
    with the decoded column count and width and 0 fractional digits. *)
Theorem aseg_gdf_format2dtype_returns_iff (s : string)
  (v : dtype_value * pyval * Z * Z) :
  aseg_gdf_format2dtype s = Ok v
  <-> exists cols width,
        decode_aseg_gdf_format s = Ok (cols, "A", width, 0)
        /\ v = (DtypeStrClass, cols, width, 0).
Proof.
  unfold aseg_gdf_format2dtype. split.
  - intros H. bind_inv H as decoded Hdecoded.
    destruct decoded as [[[cols code] i] f]. cbv zeta in H.
    bind_inv H as d1 Hd1. clear Hd1. bind_inv H as d2 Hd2.
    apply Ok_inj in H. subst v.
    destruct (String.eqb_spec code "A") as [HA|HnA]; [|discriminate].
    bind_inv Hd2 as u Hu. apply Ok_inj in Hd2. subst d2.
    unfold assert in Hu. destruct (Z.eqb_spec f 0) as [Hf|Hf]; [|discriminate].
    exists cols, i. rewrite Hdecoded, HA, Hf. now split.
  - intros (cols & width & -> & ->). reflexivity.
Qed.

Lemma aseg_gdf_format2dtype_returns_iff_witness :
  aseg_gdf_format2dtype "3a24" = Ok (DtypeStrClass, PyStr "3", 24, 0).
Proof.
  apply (proj2 (aseg_gdf_format2dtype_returns_iff "3a24"
                  (DtypeStrClass, PyStr "3", 24, 0))).
  exists (PyStr "3"), 24. split; reflexivity.
Defined.

(** X6. How the function fails on a specifier that decodes: an integer
    code with fractional digits, an integer code with more than 19 digits, a
    float code with more than 20 digits in all, and a text code with
    fractional digits raise AssertionError; every other specifier whose code
    is not A raises BaseException, the integer and float ones included. *)
Theorem aseg_gdf_format2dtype_raises (s : string) (cols : pyval)
  (code : string) (i f : Z) :
  decode_aseg_gdf_format s = Ok (cols, code, i, f) ->
  (code = "I" -> f <> 0 ->
   aseg_gdf_format2dtype s
   = Raise (AssertionError
              "Integer format cannot be defined with fractional digits"))
  /\ (code = "I" -> f = 0 -> 19 < i ->
      aseg_gdf_format2dtype s
      = Raise (AssertionError ("Invalid integer length of " ++ str_of_Z i)))
  /\ (code = "I" -> f = 0 -> i <= 19 ->
      aseg_gdf_format2dtype s
      = Raise (BaseException "Unhandled ASEG-GDF dtype code I"))
  /\ (code = "D" \/ code = "E" \/ code = "F" -> 20 < i + f ->
      aseg_gdf_format2dtype s
      = Raise (AssertionError
                 ("Invalid floating point format of "
                    ++ str_of_Z i ++ "." ++ str_of_Z f)))
  /\ (code = "D" \/ code = "E" \/ code = "F" -> i + f <= 20 ->
      aseg_gdf_format2dtype s
      = Raise (BaseException ("Unhandled ASEG-GDF dtype code " ++ code)))
  /\ (code = "A" -> f <> 0 ->
      aseg_gdf_format2dtype s
      = Raise (AssertionError
                 "String format cannot be defined with fractional digits"))
  /\ (~ In code ["I"; "D"; "E"; "F"; "A"]%list ->
      aseg_gdf_format2dtype s
      = Raise (BaseException ("Unhandled ASEG-GDF dtype code " ++ code))).
Proof.
  intros Hdecoded. unfold aseg_gdf_format2dtype. rewrite Hdecoded.
  cbn [bind]. cbv zeta.
  repeat split.
  - intros -> Hf. cbn [String.eqb Ascii.eqb Bool.eqb].
    destruct (Z.eqb_spec f 0); [contradiction|reflexivity].
  - intros -> -> Hi. cbn [String.eqb Ascii.eqb Bool.eqb Z.eqb assert bind].
    rewrite int_search_truthy.
    destruct (Z.leb_spec i 19); [lia|reflexivity].
  - intros -> -> Hi. cbn [String.eqb Ascii.eqb Bool.eqb Z.eqb assert bind].
    rewrite int_search_truthy.
    destruct (Z.leb_spec i 19); [reflexivity|lia].
  - intros Hc Hd.
    assert (String.eqb code "I" = false
            /\ str_in code ["D"; "E"; "F"] = true) as [-> ->]
      by (destruct Hc as [->|[->| ->]]; split; reflexivity).
    unfold assert. rewrite float_search_truthy.
    destruct (Z.leb_spec (i + f) 20); [lia|reflexivity].
  - intros Hc Hd.
    assert (String.eqb code "I" = false
            /\ str_in code ["D"; "E"; "F"] = true
            /\ String.eqb code "A" = false) as (-> & -> & HA)
      by (destruct Hc as [->|[->| ->]]; repeat split; reflexivity).
    unfold assert. rewrite float_search_truthy.
    destruct (Z.leb_spec (i + f) 20); [|lia].
    cbn [bind]. now rewrite HA.
  - intros -> Hf. cbn.
    destruct (Z.eqb_spec f 0); [contradiction|reflexivity].
  - intros Hn. cbn [In] in Hn.
    destruct (String.eqb_spec code "I"); [exfalso; auto 10|].
    unfold str_in. cbn [existsb].
    destruct (String.eqb_spec code "D"); [exfalso; auto 10|].
    destruct (String.eqb_spec code "E"); [exfalso; auto 10|].
    destruct (String.eqb_spec code "F"); [exfalso; auto 10|].
    cbn [orb bind].
    destruct (String.eqb_spec code "A"); [exfalso; auto 10|reflexivity].
Qed.

Lemma aseg_gdf_format2dtype_raises_witness :
  aseg_gdf_format2dtype "F10.15"
  = Raise (AssertionError "Invalid floating point format of 10.15")
  /\ aseg_gdf_format2dtype "4d10.4"
     = Raise (BaseException "Unhandled ASEG-GDF dtype code D").
Proof.
  split.
  - exact (proj1 (proj2 (proj2 (proj2
             (aseg_gdf_format2dtype_raises "F10.15" (PyInt 1) "F" 10 15
                eq_refl))))
             (or_intror (or_intror eq_refl)) eq_refl).
  - refine (proj1 (proj2 (proj2 (proj2 (proj2
              (aseg_gdf_format2dtype_raises "4d10.4" (PyStr "4") "D" 10 4
                 eq_refl)))))
              (or_introl eq_refl) _).
    discriminate.
Defined.

(** X7. The search through [SIG_FIGS] for an integer or a float kind stops
    at a kind of the family asked for that is wide enough, and no kind of
    that family that is wide enough is narrower; it finds nothing only when
    no kind of the family is wide enough. *)
Theorem search_finds_narrowest (family : string) (digits : Z) :
  family = "int" \/ family = "float" ->
  match first_wide_enough SIG_FIGS family digits with
  | DtypeName name =>
      exists cap,
        dict_get SIG_FIGS name = Some cap
        /\ startswith name family = true
        /\ digits <= cap
        /\ forall other c,
             dict_get SIG_FIGS other = Some c ->
             startswith other family = true -> digits <= c -> cap <= c
  | DtypeNone =>
      forall other c,
        dict_get SIG_FIGS other = Some c ->
        startswith other family = true -> c < digits
  | DtypeStrClass => False
  end.
Proof.
  assert (Hkeys : forall other c (P : Prop),
             dict_get SIG_FIGS other = Some c ->
             (other = "int8" -> c = 2 -> P) ->
             (other = "int16" -> c = 4 -> P) ->
             (other = "int32" -> c = 10 -> P) ->
             (other = "int64" -> c = 19 -> P) ->
             (other = "float32" -> c = 7 -> P) ->
             (other = "float64" -> c = 20 -> P) -> P).
  { intros other c P. unfold SIG_FIGS. cbn [dict_get].
    repeat match goal with
           | |- context [String.eqb ?x other] =>
               destruct (String.eqb_spec x other) as [<-|_];
               [intros [= <-]; auto|]
           end.
    discriminate. }
  intros [-> | ->]; unfold SIG_FIGS at 1;
    cbn [first_wide_enough startswith String.prefix Ascii.eqb Bool.eqb andb];
    repeat match goal with
           | |- context [?c >=? digits] =>
               destruct (Z.geb_spec c digits)
           end;
    try (eexists; split; [reflexivity|]; split; [reflexivity|];
         split; [assumption|]);
    intros other c Hget Hfam;
    apply (Hkeys other c _ Hget); intros -> ->;
    try discriminate Hfam; lia.
Qed.

Lemma search_finds_narrowest_witness :
  exists cap,
    dict_get SIG_FIGS "int32" = Some cap
    /\ startswith "int32" "int" = true
    /\ 5 <= cap
    /\ forall other c,
         dict_get SIG_FIGS other = Some c ->
         startswith other "int" = true -> 5 <= c -> cap <= c.
Proof. exact (search_finds_narrowest "int" 5 (or_introl eq_refl)). Defined.

(** ** fix_field_precision, candidate by candidate *)

(** The loop over the candidates never touches the fill value. *)
Lemma try_smaller_fill_value (data : ndarray) (mask : list bool)
  (cands : list string) (st : locals) :
  fill_value (fst (try_smaller data mask cands st)) = fill_value st.
Proof.
  revert st. induction cands as [|d cands IH]; intros st; [reflexivity|].
  cbn [try_smaller].
  destruct (astype data d) as [n|e]; [|reflexivity]. cbn [bind].
  destruct (differences_found data n (precision_digits st)) as [[|]|e];
    cbn [bind]; [apply IH| |reflexivity].
  destruct (variable2aseg_gdf_format n (Some (precision_digits st)))
    as [new|e]; [|reflexivity].
  cbn [bind fill_value].
  destruct (fill_value st) as [fill|]; [|reflexivity].
  assert (Hfinish : forall shown,
             fill_value
               (fst
                  match
                    truncate_fill_value data mask (integer_digits new)
                      (fractional_digits new) shown
                  with
                  | Ok truncated =>
                      ({| fill_value := Some fill;
                          precision_digits := fractional_digits new |},
                       Ok (Some {| new_format := new;
                                   new_fill_value := Some truncated |}))
                  | Raise (Unmodelled what) =>
                      ({| fill_value := Some fill;
                          precision_digits := fractional_digits new |},
                       Raise (Unmodelled what))
                  | Raise (BaseException msg) =>
                      ({| fill_value := Some fill;
                          precision_digits := fractional_digits new |},
                       Raise (BaseException msg))
                  | Raise _ =>
                      ({| fill_value := Some fill;
                          precision_digits := fractional_digits new |},
                       Ok (Some {| new_format := new;
                                   new_fill_value := Some shown |}))
                  end) = Some fill).
  { intros shown.
    destruct (truncate_fill_value data mask (integer_digits new)
                (fractional_digits new) shown) as [t|[]]; reflexivity. }
  destruct (np_any mask); [|apply Hfinish].
  destruct (item0 (select mask data)) as [shown|e]; [|reflexivity].
  cbn [bind].
  destruct (array_eq (select (map negb mask) data) shown) as [hits|e];
    [|reflexivity].
  cbn [bind]. destruct (np_any hits); [|apply Hfinish].
  now rewrite IH.
Qed.

(** With no fill value the loop either returns a tuple or leaves the locals
    as they were. *)
Lemma try_smaller_no_fill_locals (data : ndarray) (mask : list bool)
  (cands : list string) (st : locals) :
  fill_value st = None ->
  (exists r, snd (try_smaller data mask cands st) = Ok (Some r))
  \/ fst (try_smaller data mask cands st) = st.
Proof.
  intros Hfill. induction cands as [|d cands IH]; [now right|].
  cbn [try_smaller].
  destruct (astype data d) as [n|e]; [|now right]. cbn [bind].
  destruct (differences_found data n (precision_digits st)) as [[|]|e];
    cbn [bind]; [apply IH| |now right].
  destruct (variable2aseg_gdf_format n (Some (precision_digits st)))
    as [new|e]; [|now right].
  cbn [bind fill_value]. rewrite Hfill. left. eexists. reflexivity.
Qed.

(** What a returned tuple says about the candidates: the one it comes from
    narrowed the data with no difference found, and its format is the format
    of the narrowed array; with no fill value every candidate before it
    showed a difference; a fill value comes back as it is shown in the data
    or as it was given, truncated or not. *)
Lemma try_smaller_inv (data : ndarray) (mask : list bool)
  (cands : list string) (st st' : locals) (r : reduced_format) :
  try_smaller data mask cands st = (st', Ok (Some r)) ->
  exists before d after narrowed digits,
    cands = (before ++ d :: after)%list
    /\ astype data d = Ok narrowed
    /\ differences_found data narrowed digits = Ok false
    /\ variable2aseg_gdf_format narrowed (Some digits) = Ok (new_format r)
    /\ (fill_value st = None ->
        digits = precision_digits st
        /\ new_fill_value r = None
        /\ forall c, In c before ->
             exists n, astype data c = Ok n
                       /\ differences_found data n digits = Ok true)
    /\ (forall fill, fill_value st = Some fill ->
        exists shown kept,
          new_fill_value r = Some kept
          /\ (shown = fill
              \/ (np_any mask = true
                  /\ item0 (select mask data) = Ok shown))
          /\ (kept = shown
              \/ exists i f,
                   truncate_fill_value data mask i f shown = Ok kept)).
Proof.
  revert st. induction cands as [|d cands IH]; intros st H;
    [discriminate|].
  cbn [try_smaller] in H.
  destruct (astype data d) as [n|e] eqn:Ea; [|discriminate].
  cbn [bind] in H.
  destruct (differences_found data n (precision_digits st)) as [[|]|e] eqn:Ed;
    cbn [bind] in H; [| |discriminate].
  - (* differences found: on to the next candidate *)
    destruct (IH _ H)
      as (before & d' & after & narrowed & digits & -> & Ha & Hd & Hv
          & Hnone & Hsome).
    exists (d :: before)%list, d', after, narrowed, digits.
    do 4 (split; [reflexivity || assumption|]). split; [|assumption].
    intros Hfill. destruct (Hnone Hfill) as (-> & Hr & Hbefore).
    do 2 (split; [reflexivity || assumption|]).
    intros c [<-|Hin]; [eauto | now apply Hbefore].
  - destruct (variable2aseg_gdf_format n (Some (precision_digits st)))
      as [new|e] eqn:Ev; [|discriminate].
    cbn [bind fill_value] in H.
    assert (Hfinish : forall fill shown,
               fill_value st = Some fill ->
               shown = fill
               \/ (np_any mask = true
                   /\ item0 (select mask data) = Ok shown) ->
               match
                 truncate_fill_value data mask (integer_digits new)
                   (fractional_digits new) shown
               with
               | Ok truncated =>
                   ({| fill_value := Some fill;
                       precision_digits := fractional_digits new |},
                    Ok (Some {| new_format := new;
                                new_fill_value := Some truncated |}))
               | Raise (Unmodelled what) =>
                   ({| fill_value := Some fill;
                       precision_digits := fractional_digits new |},
                    Raise (Unmodelled what))
               | Raise (BaseException msg) =>
                   ({| fill_value := Some fill;
                       precision_digits := fractional_digits new |},
                    Raise (BaseException msg))
               | Raise _ =>
                   ({| fill_value := Some fill;
                       precision_digits := fractional_digits new |},
                    Ok (Some {| new_format := new;
                                new_fill_value := Some shown |}))
               end = (st', Ok (Some r)) ->
               exists before d0 after narrowed digits,
                 (d :: cands = before ++ d0 :: after)%list
                 /\ astype data d0 = Ok narrowed
                 /\ differences_found data narrowed digits = Ok false
                 /\ variable2aseg_gdf_format narrowed (Some digits)
                    = Ok (new_format r)
                 /\ (fill_value st = None ->
                     digits = precision_digits st
                     /\ new_fill_value r = None
                     /\ forall c, In c before ->
                          exists n0, astype data c = Ok n0
                                     /\ differences_found data n0 digits
                                        = Ok true)
                 /\ (forall fill0, fill_value st = Some fill0 ->
                     exists shown0 kept,
                       new_fill_value r = Some kept
                       /\ (shown0 = fill0
                           \/ (np_any mask = true
                               /\ item0 (select mask data) = Ok shown0))
                       /\ (kept = shown0
                           \/ exists i f,
                                truncate_fill_value data mask i f shown0
                                = Ok kept))).
    { intros fill shown Hfill Hshown Hr.
      exists []%list, d, cands, n, (precision_digits st).
      assert (Hnew : new_format r = new
                     /\ exists kept,
                          new_fill_value r = Some kept
                          /\ (kept = shown
                              \/ exists i f,
                                   truncate_fill_value data mask i f shown
                                   = Ok kept)).
      { destruct (truncate_fill_value data mask (integer_digits new)
                    (fractional_digits new) shown) as [t|[]] eqn:Et;
          try discriminate;
          injection Hr as _ <-; cbn [new_format new_fill_value];
          (split; [reflexivity|]); eexists; (split; [reflexivity|]);
          eauto. }
      destruct Hnew as (Hnew & kept & Hkept & Hhow).
      rewrite Hnew.
      do 4 (split; [reflexivity || assumption|]). split.
      - intros Hnone. rewrite Hfill in Hnone. discriminate.
      - intros fill0 Hfill0. rewrite Hfill in Hfill0.
        injection Hfill0 as <-. now exists shown, kept. }
    destruct (fill_value st) as [fill|] eqn:Efill.
    + destruct (np_any mask) eqn:Eany; [|now apply (Hfinish fill fill); auto].
      destruct (item0 (select mask data)) as [shown|e] eqn:Eitem;
        [|discriminate].
      cbn [bind] in H.
      destruct (array_eq (select (map negb mask) data) shown) as [hits|e];
        [|discriminate].
      cbn [bind] in H.
      destruct (np_any hits); [|now apply (Hfinish fill shown); auto].
      (* the fill value shown is ambiguous: on to the next candidate *)
      destruct (IH _ H)
        as (before & d' & after & narrowed & digits & -> & Ha & Hd & Hv
            & _ & Hsome).
      exists (d :: before)%list, d', after, narrowed, digits.
      do 4 (split; [reflexivity || assumption|]). split; [discriminate|].
      intros fill0 [= <-]. now apply Hsome.
    + injection H as _ <-. cbn [new_format new_fill_value].
      exists []%list, d, cands, n, (precision_digits st).
      do 4 (split; [reflexivity || assumption|]). split; [|discriminate].
      intros _. do 2 (split; [reflexivity|]). intros c [].
Qed.

(** What a returned tuple says about the reduction lists: it comes from the
    candidates of a list that holds the current dtype. For an array without
    a mask, the fill value handed to the candidates is the one given, the
    no-data mask marks the elements equal to it, and with no fill value the
    mask is empty and the digits are the ones given. *)
Lemma reduce_in_inv (lists : list (list string)) (a : ndarray)
  (cur : string) (st : locals) (r : reduced_format) :
  reduce_in lists a cur st = Ok (Some r) ->
  exists l index mask st1 st',
    In l lists
    /\ list_index l cur = Ok index
    /\ try_smaller (data_of a) mask (after_reversed l index) st1
       = (st', Ok (Some r))
    /\ (arr_masked a = None ->
        fill_value st1 = fill_value st
        /\ (fill_value st = None -> st1 = st /\ mask = []%list)
        /\ (forall fill, fill_value st = Some fill ->
                         array_eq (data_of a) fill = Ok mask)).
Proof.
  revert st. induction lists as [|l lists IH]; intros st H; [discriminate|].
  cbn [reduce_in] in H.
  assert (Hnext : forall st2,
             reduce_in lists a cur st2 = Ok (Some r) ->
             (arr_masked a = None ->
              fill_value st2 = fill_value st
              /\ (fill_value st = None -> st2 = st)) ->
             exists l0 index mask st1 st',
               In l0 (l :: lists)
               /\ list_index l0 cur = Ok index
               /\ try_smaller (data_of a) mask (after_reversed l0 index) st1
                  = (st', Ok (Some r))
               /\ (arr_masked a = None ->
                   fill_value st1 = fill_value st
                   /\ (fill_value st = None -> st1 = st /\ mask = []%list)
                   /\ (forall fill, fill_value st = Some fill ->
                                    array_eq (data_of a) fill = Ok mask))).
  { intros st2 H2 Hst2.
    destruct (IH _ H2) as (l0 & index & mask & st1 & st' & Hin & Hi & Ht & Hm).
    exists l0, index, mask, st1, st'.
    do 3 (split; [(now right) || assumption|]).
    intros Hmask. destruct (Hst2 Hmask) as (Hf2 & Hn2).
    destruct (Hm Hmask) as (Hf1 & Hn1 & Hs1).
    split; [congruence|]. split.
    - intros Hnone. rewrite <- (Hn2 Hnone). apply Hn1. congruence.
    - intros fill Hfill. apply Hs1. congruence. }
  destruct (list_index l cur) as [index|e] eqn:Ei.
  - fold (data_of a) in H.
    set (st0 := match arr_masked a with
                | Some m => {| fill_value := Some (ma_fill_value m);
                               precision_digits := precision_digits st |}
                | None => st
                end) in *.
    set (mask0 := match fill_value st0 with
                  | Some fill => array_eq (data_of a) fill
                  | None => Ok match arr_masked a with
                               | Some m => ma_mask m
                               | None => []%list
                               end
                  end) in *.
    assert (Hst0 : arr_masked a = None -> st0 = st)
      by (intros Hm; subst st0; now rewrite Hm).
    destruct mask0 as [mask|e] eqn:Emask.
    + destruct (try_smaller (data_of a) mask (after_reversed l index) st0)
        as [st2 res] eqn:Et.
      assert (Hst2 : arr_masked a = None ->
                     (forall r', res <> Ok (Some r')) ->
                     fill_value st2 = fill_value st
                     /\ (fill_value st = None -> st2 = st)).
      { intros Hm Hres. rewrite <- (Hst0 Hm).
        pose proof (try_smaller_fill_value (data_of a) mask
                      (after_reversed l index) st0) as Hf.
        rewrite Et in Hf. cbn [fst] in Hf. split; [assumption|].
        intros Hnone.
        destruct (try_smaller_no_fill_locals (data_of a) mask
                    (after_reversed l index) st0 Hnone) as [[r' Hr']|Hs];
          rewrite Et in *; cbn [fst snd] in *; [|assumption].
        now destruct (Hres r'). }
      destruct res as [[r'|]|e].
      * apply Ok_inj in H. injection H as ->.
        exists l, index, mask, st0, st2.
        do 3 (split; [(now left) || assumption|]).
        intros Hm. clear Hst0 Hst2 Et. subst mask0 st0.
        rewrite Hm in *. split; [reflexivity|]. split.
        -- intros Hnone. split; [reflexivity|].
           rewrite Hnone in Emask. now apply Ok_inj in Emask.
        -- intros fill Hfill. now rewrite Hfill in Emask.
      * apply (Hnext st2 H). intros Hm. now apply Hst2.
      * destruct e; try discriminate.
        apply (Hnext st2 H). intros Hm. now apply Hst2.
    + destruct e; try discriminate.
      apply (Hnext st0 H). intros Hm. now rewrite (Hst0 Hm).
  - destruct e; try discriminate. apply (Hnext st H). now intros _.
Qed.

(** The candidates there are for a current dtype. *)
Lemma candidates_of (cur d : string) (l : list string) (index : nat) :
  In l DTYPE_REDUCTION_LISTS ->
  list_index l cur = Ok index ->
  In d (after_reversed l index) ->
  (cur = "int64" /\ (d = "int8" \/ d = "int16" \/ d = "int32"))
  \/ (cur = "int32" /\ (d = "int8" \/ d = "int16"))
  \/ (cur = "int16" /\ d = "int8")
  \/ (cur = "float64" /\ d = "float32").
Proof.
  intros [<-|[<-|[]]]; cbn [list_index];
    repeat match goal with
           | |- context [String.eqb ?x cur] =>
               destruct (String.eqb_spec x cur) as [<-|_];
               [intros [= <-]; cbn; intuition auto|cbn [bind]]
           end;
    discriminate.
Qed.

(** A tuple is given back for the five dtypes with a numeric type code, and
    carries the dtype of the array. *)
Lemma accepted_dtype (a : ndarray) (dp : option Z) (r : column_format) :
  variable2aseg_gdf_format a dp = Ok r ->
  dtype r = arr_dtype a
  /\ In (arr_dtype a) ["int16"; "int32"; "int64"; "float32"; "float64"]%list.
Proof.
  intros H.
  apply variable2aseg_gdf_format_tuple in H
    as (code & Hcode & _ & Hdtype & Hcases).
  split; [assumption|].
  assert (Hc : code = "I" \/ code = "F" \/ code = "D")
    by (destruct Hcases as [[-> _]|[[->| ->] _]]; auto).
  destruct (numeric_code_dtypes _ _ Hcode Hc)
    as [[_ [->|[->| ->]]]|[[_ ->]|[_ ->]]]; cbn; auto 10.
Qed.

Lemma astype_dtype (a narrowed : ndarray) (d : string) :
  astype a d = Ok narrowed ->
  arr_dtype narrowed = d /\ arr_shape narrowed = arr_shape a.
Proof.
  unfold astype. intros H. bind_inv H as v Hv. apply Ok_inj in H.
  now subst narrowed.
Qed.

(** X8. The only reductions ever returned are int64 to int32 or int16,
    int32 to int16, and float64 to float32: int8 is never returned, nor is
    anything for a current dtype of int16, int8 or float32. *)
Theorem fix_field_precision_reductions (a : ndarray) (current_dtype : string)
  (digits : Z) (fill : option scalar) (r : reduced_format) :
  fix_field_precision a current_dtype digits fill = Ok (Some r) ->
  (current_dtype = "int64"
   /\ (dtype (new_format r) = "int32" \/ dtype (new_format r) = "int16"))
  \/ (current_dtype = "int32" /\ dtype (new_format r) = "int16")
  \/ (current_dtype = "float64" /\ dtype (new_format r) = "float32").
Proof.
  unfold fix_field_precision. intros H.
  apply reduce_in_inv in H
    as (l & index & mask & st1 & st' & Hin & Hi & Ht & _).
  apply try_smaller_inv in Ht
    as (before & d & after & narrowed & fd & Hc & Ha & _ & Hv & _).
  apply accepted_dtype in Hv as [-> Hacc].
  apply astype_dtype in Ha as [Hd _]. rewrite Hd in *.
  assert (Hind : In d (after_reversed l index))
    by (rewrite Hc; apply in_or_app; right; now left).
  cbn [In] in Hacc.
  destruct (candidates_of _ _ _ _ Hin Hi Hind)
    as [[-> [->|[->| ->]]]|[[-> [->| ->]]|[[-> ->]|[-> ->]]]];
    try (intuition discriminate); auto 10.
Qed.

Lemma fix_field_precision_reductions_witness :
  ("int64" = "int64" /\ ("int32" = "int32" \/ "int32" = "int16"))
  \/ ("int64" = "int32" /\ "int32" = "int16")
  \/ ("int64" = "float64" /\ "int32" = "float32").
Proof.
  exact (fix_field_precision_reductions (int64_array [100000; 200000])
           "int64" 0 None _ eq_refl).
Defined.

(** With no mask and no fill value: the candidates are tried narrowest
    first against the digits given, and the first with no difference is the
    one returned. *)
Lemma fix_field_precision_no_fill (a : ndarray) (cur : string) (digits : Z)
  (r : reduced_format) :
  arr_masked a = None ->
  fix_field_precision a cur digits None = Ok (Some r) ->
  exists l index before after narrowed,
    In l DTYPE_REDUCTION_LISTS
    /\ list_index l cur = Ok index
    /\ after_reversed l index
       = (before ++ dtype (new_format r) :: after)%list
    /\ astype a (dtype (new_format r)) = Ok narrowed
    /\ differences_found (data_of a) narrowed digits = Ok false
    /\ variable2aseg_gdf_format narrowed (Some digits) = Ok (new_format r)
    /\ new_fill_value r = None
    /\ forall c, In c before ->
         exists n, astype a c = Ok n
                   /\ differences_found (data_of a) n digits = Ok true.
Proof.
  unfold fix_field_precision. intros Hm H.
  apply reduce_in_inv in H
    as (l & index & mask & st1 & st' & Hin & Hi & Ht & Hst).
  destruct (Hst Hm) as (_ & Hnone & _).
  destruct (Hnone eq_refl) as [-> ->].
  apply try_smaller_inv in Ht
    as (before & d & after & narrowed & fd & Hc & Ha & Hd & Hv & Hn & _).
  destruct (Hn eq_refl) as (-> & Hfill & Hbefore).
  cbn [precision_digits] in *.
  change (astype (data_of a) d) with (astype a d) in Ha.
  assert (Hdtype : dtype (new_format r) = d).
  { destruct (accepted_dtype _ _ _ Hv) as [-> _].
    now destruct (astype_dtype _ _ _ Ha). }
  rewrite Hdtype.
  exists l, index, before, after, narrowed.
  do 7 (split; [assumption|]). exact Hbefore.
Qed.

(** X9. Narrowest first: for an array without mask or fill value, the
    dtype returned is a candidate after the current dtype in its reduction
    list, none of the narrower candidates could hold the data without a
    difference at the digits given, the returned format is the format of the
    narrowed array, and no fill value is returned. *)
Theorem fix_field_precision_narrowest (a : ndarray) (current_dtype : string)
  (digits : Z) (r : reduced_format) :
  arr_masked a = None ->
  fix_field_precision a current_dtype digits None = Ok (Some r) ->
  exists l index before after narrowed,
    In l DTYPE_REDUCTION_LISTS
    /\ list_index l current_dtype = Ok index
    /\ after_reversed l index
       = (before ++ dtype (new_format r) :: after)%list
    /\ astype a (dtype (new_format r)) = Ok narrowed
    /\ differences_found (data_of a) narrowed digits = Ok false
    /\ variable2aseg_gdf_format narrowed (Some digits) = Ok (new_format r)
    /\ new_fill_value r = None
    /\ forall c, In c before ->
         exists n, astype a c = Ok n
                   /\ differences_found (data_of a) n digits = Ok true.
Proof. exact (fix_field_precision_no_fill a current_dtype digits r). Qed.

Lemma fix_field_precision_narrowest_witness :
  exists r l index before after narrowed,
    fix_field_precision (int64_array [100000; 200000]) "int64" 0 None
    = Ok (Some r)
    /\ In l DTYPE_REDUCTION_LISTS
    /\ list_index l "int64" = Ok index
    /\ after_reversed l index
       = (before ++ dtype (new_format r) :: after)%list
    /\ astype (int64_array [100000; 200000]) (dtype (new_format r))
       = Ok narrowed
    /\ forall c, In c before ->
         exists n, astype (int64_array [100000; 200000]) c = Ok n
                   /\ differences_found
                        (data_of (int64_array [100000; 200000])) n 0
                      = Ok true.
Proof.
  eexists.
  destruct (fix_field_precision_narrowest (int64_array [100000; 200000])
              "int64" 0 _ eq_refl eq_refl)
    as (l & index & before & after & narrowed & H1 & H2 & H3 & H4 & _ & _
        & _ & H8).
  exists l, index, before, after, narrowed.
  split; [reflexivity|]. now repeat split.
Defined.

(** *** Integers narrowed without loss *)

Lemma wrap_range (bits z : Z) :
  0 < bits -> - 2 ^ (bits - 1) <= wrap bits z < 2 ^ (bits - 1).
Proof.
  intros Hb. unfold wrap.
  assert (2 ^ bits = 2 * 2 ^ (bits - 1)) as ->.
  { replace bits with ((bits - 1) + 1) at 1 by lia.
    rewrite Z.pow_add_r by lia. lia. }
  assert (0 < 2 ^ (bits - 1)) by (apply Z.pow_pos_nonneg; lia).
  pose proof (Z.mod_pos_bound (z + 2 ^ (bits - 1)) (2 * 2 ^ (bits - 1))).
  lia.
Qed.

(** An element away from the ends of the width, with no difference seen at
    no fractional digit, is unchanged by the narrowing. *)
Lemma narrow_exact (b1 b2 x : Z) :
  0 < b2 -> b2 < b1 -> Z.abs x < 2 ^ (b1 - 2) ->
  (1 <=? wrap b1 (Z.abs (wrap b1 (wrap b1 x - wrap b1 (wrap b2 x)))))
  = false ->
  wrap b2 x = x.
Proof.
  intros Hb2 Hb Hx H.
  assert (Hhalf : 2 ^ (b1 - 1) = 2 * 2 ^ (b1 - 2)).
  { replace (b1 - 1) with ((b1 - 2) + 1) by lia.
    rewrite Z.pow_add_r by lia. lia. }
  assert (Hle : 2 ^ (b2 - 1) <= 2 ^ (b1 - 2))
    by (apply Z.pow_le_mono_r; lia).
  assert (0 < 2 ^ (b1 - 2)) by (apply Z.pow_pos_nonneg; lia).
  pose proof (wrap_range b2 x Hb2) as Hy.
  rewrite (wrap_small b1 x) in H by lia.
  rewrite (wrap_small b1 (wrap b2 x)) in H by lia.
  rewrite (wrap_small b1 (x - wrap b2 x)) in H by lia.
  rewrite (wrap_small b1 (Z.abs _)) in H by lia.
  apply Z.leb_gt in H. lia.
Qed.

Lemma zip_with_map {A B C D : Type} (f : B -> C -> D) (g : A -> B)
  (h : A -> C) (l : list A) :
  zip_with f (map g l) (map h l) = map (fun x => f (g x) (h x)) l.
Proof. induction l as [|x l IH]; cbn; [reflexivity | now rewrite IH]. Qed.

Lemma np_any_map_false {A : Type} (f : A -> bool) (l : list A) :
  np_any (map f l) = false -> forall x, In x l -> f x = false.
Proof.
  unfold np_any. induction l as [|y l IH]; cbn; [easy|].
  intros H x [<-|Hin]; apply orb_false_iff in H as [Hy Hl]; auto.
Qed.

(** Between integer dtypes, no difference at no fractional digit means no
    element changed, as long as no element is near the ends of the wider
    dtype. *)
Lemma no_difference_no_change (shape : list Z) (d1 d2 : string)
  (b1 b2 : Z) (l : list Z) :
  int_bits d1 = Some b1 -> int_bits d2 = Some b2 -> b2 < b1 ->
  (forall x, In x l -> Z.abs x < 2 ^ (b1 - 2)) ->
  differences_found (plain_array shape d1 (Ints l))
    (plain_array shape d2 (Ints (map (wrap b2) l))) 0 = Ok false ->
  map (wrap b2) l = l.
Proof.
  intros H1 H2 Hb Hl H.
  pose proof (int_bits_pos _ _ H2) as Hb2.
  unfold differences_found, subtract, promote in H.
  cbn [arr_dtype arr_data arr_shape plain_array] in H.
  rewrite H1, H2 in H.
  destruct (Z.ltb_spec b1 b2) as [|_]; [lia|].
  cbn [bind] in H. unfold convert in H. rewrite H1 in H.
  cbn [bind] in H. rewrite map_map, zip_with_map in H.
  unfold np_abs in H. cbn [arr_dtype arr_data arr_shape plain_array] in H.
  rewrite H1, map_map in H. cbn [bind] in H.
  unfold array_ge, compare_with, pow10_neg in H.
  cbn [arr_dtype arr_data arr_shape plain_array Z.leb Z.compare Z.opp Z.pow
       Z.pow_pos Pos.iter Z.mul Pos.mul] in H.
  rewrite map_map in H. cbn [bind] in H. apply Ok_inj in H.
  rewrite <- (map_id l) at 2. apply map_ext_in. intros x Hin.
  apply (narrow_exact b1 b2); [assumption..|auto|].
  exact (np_any_map_false _ _ H x Hin).
Qed.

(** X10. Integers are narrowed without loss: for an integer array without
    mask or fill value whose elements all lie within a quarter of the range
    of its dtype, checked at no fractional digit, converting the array to
    the dtype returned changes no element. *)
Theorem narrowing_keeps_integers (a : ndarray) (l : list Z) (bits : Z)
  (r : reduced_format) :
  arr_data a = Ints l ->
  arr_masked a = None ->
  int_bits (arr_dtype a) = Some bits ->
  (forall x, In x l -> Z.abs x < 2 ^ (bits - 2)) ->
  fix_field_precision a (arr_dtype a) 0 None = Ok (Some r) ->
  astype a (dtype (new_format r))
  = Ok (plain_array (arr_shape a) (dtype (new_format r)) (Ints l)).
Proof.
  intros Hdata Hm Hbits Hl H.
  apply fix_field_precision_no_fill in H
    as (l0 & index & before & after & narrowed & Hin & Hi & Hc & Ha & Hd
        & Hv & _); [|assumption].
  remember (dtype (new_format r)) as d eqn:Ed. clear Ed.
  assert (Hind : In d (after_reversed l0 index))
    by (rewrite Hc; apply in_or_app; right; now left).
  destruct (accepted_dtype _ _ _ Hv) as [_ Hacc].
  destruct (astype_dtype _ _ _ Ha) as [Hnd _]. rewrite Hnd in Hacc.
  assert (Hb2 : exists b2, int_bits d = Some b2 /\ b2 < bits).
  { cbn [In] in Hacc.
    destruct (candidates_of _ _ _ _ Hin Hi Hind)
      as [[Hcur [->|[->| ->]]]|[[Hcur [->| ->]]|[[Hcur ->]|[Hcur ->]]]];
      rewrite Hcur in Hbits; try (intuition discriminate);
      injection Hbits as <-; eexists; (split; [reflexivity|lia]). }
  destruct Hb2 as (b2 & Hb2 & Hlt).
  unfold astype, convert in Ha |- *. rewrite Hdata, Hb2 in Ha |- *.
  cbn [bind] in Ha |- *. apply Ok_inj in Ha. subst narrowed.
  unfold data_of in Hd. rewrite Hdata in Hd.
  now rewrite (no_difference_no_change _ _ _ _ _ _ Hbits Hb2 Hlt Hl Hd).
Qed.

Lemma narrowing_keeps_integers_witness :
  astype (int64_array [100000; 200000]) "int32"
  = Ok (plain_array [2] "int32" (Ints [100000; 200000])).
Proof.
  refine (narrowing_keeps_integers (int64_array [100000; 200000])
            [100000; 200000] 64 _ eq_refl eq_refl eq_refl _ eq_refl).
  intros x [<-|[<-|[]]]; reflexivity.
Defined.

(** ** The fill value *)

(** *** A pattern with a dot on a text without one *)

Section RunFails.

Context {R : Type}.
Variable P : string -> Prop.
Hypothesis P_tail : forall c s, P (String c s) -> P s.

(** When the continuation fails wherever [P] holds, and [P] holds of every
    tail of a text it holds of, the matcher fails wherever [P] holds. *)
Lemma run_fails (r : regex) :
  forall (s : string) (g : captures) (k : @cont R),
    P s -> (forall s1 g1, P s1 -> k s1 g1 = None) -> run r s g k = None.
Proof.
  induction r as [|c|p|r1 IH1 r2 IH2|r1 IH1|r1 IH1|n r1 IH1|i r1 IH1];
    intros s g k Hs Hk; unfold run; fold (@run R).
  - now apply Hk.
  - destruct s as [|a s]; [reflexivity|].
    destruct (Ascii.eqb a c); [|reflexivity]. apply Hk. eauto.
  - destruct s as [|a s]; [reflexivity|].
    destruct (p a); [|reflexivity]. apply Hk. eauto.
  - apply IH1; [assumption|]. intros s1 g1 H1. now apply IH2.
  - generalize (String.length s) as fuel. intros fuel.
    revert s g Hs. induction fuel as [|fuel IHf]; intros s g Hs;
      cbn [star_loop]; [now apply Hk|].
    rewrite IH1; [now rewrite Hk | assumption |].
    intros s1 g1 H1. destruct (_ <? _)%nat; [|reflexivity]. now apply IHf.
  - generalize (String.length s) as fuel. intros fuel.
    revert s g Hs. induction fuel as [|fuel IHf]; intros s g Hs;
      cbn [lazy_loop]; [now apply Hk|].
    rewrite IH1; [now rewrite Hk | assumption |].
    intros s1 g1 H1. destruct (_ <? _)%nat; [|reflexivity]. now apply IHf.
  - revert s g Hs. induction n as [|n IHn]; intros s g Hs;
      cbn [upto_loop]; [now apply Hk|].
    rewrite IH1; [now rewrite Hk | assumption |].
    intros s1 g1 H1. now apply IHn.
  - apply IH1; [assumption|]. intros s1 g1 H1. now apply Hk.
Qed.

End RunFails.

Lemma dot_free_tail (c : ascii) (s : string) :
  dot_free (String c s) = true -> dot_free s = true.
Proof.
  unfold dot_free. cbn [all_chars]. intros H.
  now apply andb_prop in H as [_ H].
Qed.

(** An expression that needs a dot after its first part matches nowhere at
    the head of a text without a dot. *)
Lemma run_needs_dot {R : Type} (r1 r2 : regex) (s : string) (g : captures)
  (k : @cont R) :
  dot_free s = true ->
  run (Seq r1 (Seq (Lit ".") r2)) s g k = None.
Proof.
  intros Hs. rewrite run_seq.
  apply (run_fails (fun t => dot_free t = true) dot_free_tail);
    [assumption|].
  intros s1 g1 H1. rewrite run_seq. unfold run at 1.
  destruct s1 as [|a s1]; [reflexivity|].
  unfold dot_free in H1. cbn [all_chars] in H1.
  apply andb_prop in H1 as [Ha _]. unfold is_dot in Ha.
  now destruct (Ascii.eqb a ".").
Qed.

Lemma truncation_pattern_needs_dot (i f : Z) (s : string) :
  dot_free s = true -> re_search (truncation_pattern i f) s = None.
Proof.
  intros Hs. induction s as [|c s IH].
  - cbn [re_search]. unfold re_match, truncation_pattern.
    rewrite run_seq.
    rewrite (run_fails (fun t => dot_free t = true) dot_free_tail);
      [reflexivity|assumption|].
    intros s1 g1 H1. rewrite run_seq.
    apply (run_fails (fun t => dot_free t = true) dot_free_tail);
      [assumption|].
    intros s2 g2 H2. rewrite run_group. now apply run_needs_dot.
  - cbn [re_search]. unfold re_match, truncation_pattern.
    rewrite run_seq.
    rewrite (run_fails (fun t => dot_free t = true) dot_free_tail);
      [apply IH; now apply dot_free_tail with c|assumption|].
    intros s1 g1 H1. rewrite run_seq.
    apply (run_fails (fun t => dot_free t = true) dot_free_tail);
      [assumption|].
    intros s2 g2 H2. rewrite run_group. now apply run_needs_dot.
Qed.

(** The decimal text of an integer has no dot. *)
Lemma str_of_Z_dot_free (z : Z) : dot_free (str_of_Z z) = true.
Proof.
  assert (Hdigits : forall u,
             dot_free (NilEmpty.string_of_uint u) = true).
  { intros u. unfold dot_free.
    induction u; cbn [NilEmpty.string_of_uint all_chars]; auto. }
  unfold str_of_Z.
  destruct z as [|p|p]; cbn [Z.to_int NilZero.string_of_int];
    [reflexivity| |];
    pose proof (DecimalPos.Unsigned.to_uint_nonnil p) as Hnil;
    [|unfold dot_free; cbn [all_chars]; fold (dot_free
        (NilZero.string_of_uint (Pos.to_uint p)))];
    (assert (NilZero.string_of_uint (Pos.to_uint p)
             = NilEmpty.string_of_uint (Pos.to_uint p)) as ->
       by now destruct (Pos.to_uint p));
    apply Hdigits.
Qed.

(** An integer fill value is never truncated: the pattern finds no dot in
    its text. *)
Lemma integer_fill_value_not_truncated (data : ndarray) (mask : list bool)
  (i f z : Z) :
  truncate_fill_value data mask i f (SInt z)
  = Raise (AttributeError "'NoneType' object has no attribute 'group'").
Proof.
  unfold truncate_fill_value. cbn [str_of_scalar bind].
  now rewrite truncation_pattern_needs_dot by apply str_of_Z_dot_free.
Qed.

Lemma select_list_eqb (z : Z) (l : list Z) (x : Z) (rest : list Z) :
  select_list (map (fun y => y =? z) l) l = (x :: rest)%list -> x = z.
Proof.
  induction l as [|y l IH]; cbn [map select_list]; [discriminate|].
  destruct (Z.eqb_spec y z) as [->|_]; [now intros [= <- _]|assumption].
Qed.

(** X11. An integer fill value comes back as it was given: for an integer
    array without a mask, whatever reduction is returned carries the fill
    value unchanged. *)
Theorem integer_fill_value_kept (a : ndarray) (l : list Z)
  (current_dtype : string) (digits z : Z) (r : reduced_format) :
  arr_data a = Ints l ->
  arr_masked a = None ->
  fix_field_precision a current_dtype digits (Some (SInt z)) = Ok (Some r) ->
  new_fill_value r = Some (SInt z).
Proof.
  unfold fix_field_precision. intros Hdata Hm H.
  apply reduce_in_inv in H
    as (l0 & index & mask & st1 & st' & _ & _ & Ht & Hst).
  destruct (Hst Hm) as (Hfill & _ & Hmask). cbn [fill_value] in *.
  specialize (Hmask _ eq_refl).
  apply try_smaller_inv in Ht as (_ & _ & _ & _ & _ & _ & _ & _ & _ & _ & Hs).
  destruct (Hs _ Hfill) as (shown & kept & -> & Hshown & Hkept).
  assert (shown = SInt z) as ->.
  { destruct Hshown as [->|[_ Hitem]]; [reflexivity|].
    unfold array_eq, compare_with, data_of in Hmask.
    cbn [arr_data plain_array] in Hmask. rewrite Hdata in Hmask.
    apply Ok_inj in Hmask. subst mask.
    unfold item0, select, data_of in Hitem.
    cbn [arr_data plain_array] in Hitem. rewrite Hdata in Hitem.
    cbn [arr_data plain_array] in Hitem.
    destruct (select_list _ l) as [|x rest] eqn:Esel; [discriminate|].
    apply Ok_inj in Hitem. subst shown.
    now rewrite (select_list_eqb _ _ _ _ Esel). }
  destruct Hkept as [->|(i & f & Ht)]; [reflexivity|].
  now rewrite integer_fill_value_not_truncated in Ht.
Qed.

Lemma integer_fill_value_kept_witness :
  exists r,
    fix_field_precision (int64_array [300; -9999; 200]) "int64" 0
      (Some (SInt (-9999))) = Ok (Some r)
    /\ new_fill_value r = Some (SInt (-9999)).
Proof.
  eexists. split; [reflexivity|].
  exact (integer_fill_value_kept (int64_array [300; -9999; 200])
           [300; -9999; 200] "int64" 0 (-9999) _ eq_refl eq_refl eq_refl).
Defined.

(** ** Arrays with no element *)

(** The array is [data_of] itself and has no element. *)
Lemma empty_numeric_cases (a : ndarray) :
  empty_numeric a ->
  exists v d,
    arr_data a = v /\ arr_dtype a = d
    /\ In (v, d)
         [ (Ints [], "int8"); (Ints [], "int16"); (Ints [], "int32");
           (Ints [], "int64"); (Floats [], "float32");
           (Floats [], "float64") ]%list.
Proof.
  intros [[Hv Hd]|[Hv Hd]]; exists (arr_data a), (arr_dtype a);
    (split; [reflexivity|]); (split; [reflexivity|]);
    rewrite Hv; cbn [In] in *;
    repeat (destruct Hd as [<-|Hd]; [auto 10|]); destruct Hd.
Qed.

Lemma empty_no_tuple (a : ndarray) (decimal_places : option Z) :
  empty_numeric a ->
  shape_columns (arr_shape a) <> None ->
  variable2aseg_gdf_format a decimal_places = Raise empty_reduction.
Proof.
  intros Hempty Hshape. unfold variable2aseg_gdf_format.
  assert (exists c,
             match arr_shape a with
             | [_] => Ok 1
             | [_; n] => Ok n
             | _ => Raise (BaseException
                             "Unable to handle arrays with dimensionality > 3")
             end = Ok c) as [c ->].
  { unfold shape_columns in Hshape.
    destruct (arr_shape a) as [|x [|y [|z l]]]; try easy; eauto. }
  cbn [bind]. unfold nanmin. cbn [arr_data plain_array].
  destruct (empty_numeric_cases a Hempty) as (v & d & -> & -> & Hin).
  cbn [In] in Hin.
  repeat (destruct Hin as [[= <- <-]|Hin]; [reflexivity|]). destruct Hin.
Qed.

(** X12. An array with no element gets no tuple: with one or two axes and
    an integer or float dtype, the least element is asked for and
    ValueError is raised. *)
Theorem variable2aseg_gdf_format_empty (a : ndarray)
  (decimal_places : option Z) :
  empty_numeric a ->
  shape_columns (arr_shape a) <> None ->
  variable2aseg_gdf_format a decimal_places = Raise empty_reduction.
Proof. exact (empty_no_tuple a decimal_places). Qed.

Lemma variable2aseg_gdf_format_empty_witness :
  variable2aseg_gdf_format (plain_array [0; 3] "float32" (Floats [])) (Some 2)
  = Raise empty_reduction.
Proof.
  refine (variable2aseg_gdf_format_empty
            (plain_array [0; 3] "float32" (Floats [])) (Some 2) _ _).
  - right. split; [reflexivity|]. now left.
  - discriminate.
Defined.

(** Narrowing an array with no element: nothing differs, and the narrowed
    array has no element either. *)
Lemma narrow_empty (a : ndarray) (d : string) (digits : Z) :
  empty_numeric a ->
  In d ["int64"; "int32"; "int16"; "int8"; "float64"; "float32"]%list ->
  exists narrowed,
    astype (data_of a) d = Ok narrowed
    /\ differences_found (data_of a) narrowed digits = Ok false
    /\ empty_numeric narrowed
    /\ arr_shape narrowed = arr_shape a.
Proof.
  intros Hempty Hd.
  destruct (empty_numeric_cases a Hempty) as (v & d0 & Hv & Hd0 & Hin).
  unfold data_of, astype, differences_found, pow10_neg.
  cbn [arr_data arr_shape arr_dtype plain_array]. rewrite Hv, Hd0.
  generalize (arr_shape a) as shape. intros shape.
  cbn [In] in Hin, Hd.
  destruct (digits <=? 0);
    repeat (destruct Hin as [[= <- <-]|Hin];
            [repeat (destruct Hd as [<-|Hd];
                     [eexists; split; [reflexivity|];
                      split; [reflexivity|];
                      split; [|reflexivity];
                      unfold empty_numeric;
                      cbn [arr_data arr_dtype plain_array In]; auto 10|]);
             destruct Hd|]);
    destruct Hin.
Qed.

Lemma try_smaller_empty (a : ndarray) (d : string) (cands : list string)
  (st : locals) :
  empty_numeric a ->
  shape_columns (arr_shape a) <> None ->
  In d ["int64"; "int32"; "int16"; "int8"; "float64"; "float32"]%list ->
  try_smaller (data_of a) [] (d :: cands) st = (st, Raise empty_reduction).
Proof.
  intros Hempty Hshape Hd. cbn [try_smaller].
  destruct (narrow_empty a d (precision_digits st) Hempty Hd)
    as (narrowed & -> & Hdiff & Hn & Hs).
  cbn [bind]. rewrite Hdiff. cbn [bind].
  rewrite empty_no_tuple; [reflexivity|assumption|now rewrite Hs].
Qed.

Lemma list_index_raises (l : list string) (x : string) (e : exn) :
  list_index l x = Raise e -> exists msg, e = ValueError msg.
Proof.
  induction l as [|y l IH]; cbn [list_index]; [intros [= <-]; eauto|].
  destruct (String.eqb y x); [discriminate|].
  destruct (list_index l x); [discriminate|]. cbn [bind].
  intros [= <-]. now apply IH.
Qed.

Lemma in_after_reversed {A : Type} (l : list A) (index : nat) (x : A) :
  In x (after_reversed l index) -> In x l.
Proof.
  unfold after_reversed. intros H. apply in_rev in H.
  revert H. generalize (S index) as n. intros n. revert l.
  induction n as [|n IH]; intros l H; [assumption|].
  destruct l as [|y l]; [destruct H|]. right. now apply IH.
Qed.

Lemma reduce_in_empty (lists : list (list string)) (a : ndarray)
  (cur : string) (st : locals) :
  empty_numeric a ->
  shape_columns (arr_shape a) <> None ->
  arr_masked a = None ->
  fill_value st = None ->
  (forall l d, In l lists -> In d l ->
     In d ["int64"; "int32"; "int16"; "int8"; "float64"; "float32"]%list) ->
  reduce_in lists a cur st = Ok None.
Proof.
  intros Hempty Hshape Hm Hfill.
  induction lists as [|l lists IH]; intros Hl; [reflexivity|].
  assert (Hrest : reduce_in lists a cur st = Ok None).
  { apply IH. intros l0 d H0 Hd. apply (Hl l0 d); [now right|assumption]. }
  cbn [reduce_in].
  destruct (list_index l cur) as [index|e] eqn:Ei.
  - rewrite Hm, Hfill. fold (data_of a).
    destruct (after_reversed l index) as [|d cands] eqn:Ec.
    + cbn [try_smaller]. exact Hrest.
    + rewrite try_smaller_empty; [exact Hrest|assumption..|].
      apply (Hl l d); [now left|].
      apply (in_after_reversed l index). rewrite Ec. now left.
  - destruct (list_index_raises _ _ _ Ei) as [msg ->]. exact Hrest.
Qed.

(** X13. An array with no element is never reduced: the ValueError of the
    empty reduction is taken for that of a dtype missing from the list, and
    None is returned. *)
Theorem fix_field_precision_empty (a : ndarray) (current_dtype : string)
  (digits : Z) :
  empty_numeric a ->
  shape_columns (arr_shape a) <> None ->
  arr_masked a = None ->
  fix_field_precision a current_dtype digits None = Ok None.
Proof.
  intros Hempty Hshape Hm. unfold fix_field_precision.
  apply reduce_in_empty; try assumption; [reflexivity|].
  unfold DTYPE_REDUCTION_LISTS. cbn [In].
  intros l d [<-|[<-|[]]] Hd; cbn [In] in Hd; intuition auto.
Qed.

Lemma fix_field_precision_empty_witness :
  fix_field_precision (int64_array []) "int64" 0 None = Ok None.
Proof.
  refine (fix_field_precision_empty (int64_array []) "int64" 0 _ _ eq_refl).
  - left. split; [reflexivity|]. cbn. auto.
  - discriminate.
Defined.

(** X14. A current dtype that is in no reduction list is not an error:
    None is returned whatever the array; the narrowest dtype of a list has no
    candidate, and None is returned for an array without mask or fill
    value. *)
Theorem fix_field_precision_nothing_to_try (a : ndarray)
  (current_dtype : string) (digits : Z) (fill : option scalar) :
  (~ In current_dtype
       ["int64"; "int32"; "int16"; "int8"; "float64"; "float32"]%list ->
   fix_field_precision a current_dtype digits fill = Ok None)
  /\ (current_dtype = "int8" \/ current_dtype = "float32" ->
      arr_masked a = None -> fill = None ->
      fix_field_precision a current_dtype digits fill = Ok None).
Proof.
  unfold fix_field_precision, DTYPE_REDUCTION_LISTS. split.
  - intros Hn. cbn [In] in Hn. cbn [reduce_in list_index].
    repeat match goal with
           | |- context [String.eqb ?c current_dtype] =>
               destruct (String.eqb_spec c current_dtype) as [<-|_];
               [exfalso; auto 10|]
           end.
    reflexivity.
  - intros Hc Hm ->.
    destruct Hc as [-> | ->];
      cbn [reduce_in list_index String.eqb Ascii.eqb Bool.eqb bind];
      rewrite Hm; reflexivity.
Qed.

Lemma fix_field_precision_nothing_to_try_witness :
  fix_field_precision (text_array None) "str" 0 None = Ok None
  /\ fix_field_precision (int64_array [1; 2]) "int8" 0 None = Ok None.
Proof.
  split.
  - apply (proj1 (fix_field_precision_nothing_to_try (text_array None) "str"
                    0 None)).
    cbn. intuition discriminate.
  - exact (proj2 (fix_field_precision_nothing_to_try (int64_array [1; 2])
                    "int8" 0 None) (or_introl eq_refl) eq_refl eq_refl).
Defined.

(** ** Floats that are not finite *)

Lemma fmax_infinity_l (y : spec_float) :
  fmax (S754_infinity false) y = S754_infinity false.
Proof. now destruct y as [[]|[]| |[] m e]. Qed.

Lemma fmax_infinity_r (x : spec_float) :
  fmax x (S754_infinity false) = S754_infinity false.
Proof. now destruct x as [[]|[]| |[] m e]. Qed.

Lemma fold_fmax_from_infinity (l : list spec_float) :
  fold_left fmax l (S754_infinity false) = S754_infinity false.
Proof.
  induction l as [|y l IH]; cbn [fold_left]; [reflexivity|].
  now rewrite fmax_infinity_l.
Qed.

Lemma fold_fmax_infinity (l : list spec_float) (x : spec_float) :
  In (S754_infinity false) (x :: l) ->
  fold_left fmax l x = S754_infinity false.
Proof.
  revert x. induction l as [|y l IH]; intros x.
  - intros [->|[]]. reflexivity.
  - intros [->|Hin]; cbn [fold_left].
    + rewrite fmax_infinity_l. apply fold_fmax_from_infinity.
    + apply IH. destruct Hin as [->|Hin]; [|now right].
      left. apply fmax_infinity_r.
Qed.

Lemma fold_fmax_nan (l : list spec_float) :
  (forall y, In y l -> y = S754_nan) -> fold_left fmax l S754_nan = S754_nan.
Proof.
  induction l as [|y l IH]; intros H; cbn [fold_left]; [reflexivity|].
  rewrite (H y) by now left. apply IH. intros z Hz. apply H. now right.
Qed.

(** X15. A float array with an infinite element gets no tuple: the count
    of integer digits raises OverflowError. Nor does a float array of NaNs
    only: it raises ValueError. *)
Theorem variable2aseg_gdf_format_not_finite (a : ndarray)
  (decimal_places : option Z) (l : list spec_float) :
  float_kind (arr_dtype a) = true ->
  shape_columns (arr_shape a) <> None ->
  arr_data a = Floats l ->
  ((exists s, In (S754_infinity s) l) ->
   variable2aseg_gdf_format a decimal_places
   = Raise (OverflowError "cannot convert float infinity to integer"))
  /\ (l <> []%list -> (forall x, In x l -> x = S754_nan) ->
      variable2aseg_gdf_format a decimal_places
      = Raise (ValueError "cannot convert float NaN to integer")).
Proof.
  intros Hkind Hshape Hdata. unfold variable2aseg_gdf_format.
  assert (exists c,
             match arr_shape a with
             | [_] => Ok 1
             | [_; n] => Ok n
             | _ => Raise (BaseException
                             "Unable to handle arrays with dimensionality > 3")
             end = Ok c) as [c ->].
  { unfold shape_columns in Hshape.
    destruct (arr_shape a) as [|x [|y [|z l']]]; try easy; eauto. }
  cbn [bind].
  assert (exists entry, dict_item SIG_FIGS (arr_dtype a) = Ok entry)
    as [entry ->]
    by (destruct (float_kind_cases _ Hkind) as [-> | ->]; eexists;
        reflexivity).
  cbn [bind]. unfold nanmin, np_abs, nanmax.
  cbn [arr_data arr_dtype plain_array]. rewrite Hdata.
  split.
  - intros [s Hin]. destruct l as [|x l]; [destruct Hin|].
    cbn [bind lt_zero map arr_data plain_array].
    rewrite fold_fmax_infinity; [reflexivity|].
    change (SFabs x :: map SFabs l)%list with (map SFabs (x :: l)).
    change (S754_infinity false) with (SFabs (S754_infinity s)).
    now apply in_map.
  - intros Hne Hnan. destruct l as [|x l]; [contradiction|].
    cbn [bind lt_zero map arr_data plain_array].
    rewrite (Hnan x) by now left. cbn [SFabs].
    rewrite fold_fmax_nan; [reflexivity|].
    intros y Hy. apply in_map_iff in Hy as (z & <- & Hz).
    rewrite (Hnan z) by now right. reflexivity.
Qed.

Lemma variable2aseg_gdf_format_not_finite_witness :
  variable2aseg_gdf_format
    (float64_array [f1_23; S754_infinity true; f100]) None
  = Raise (OverflowError "cannot convert float infinity to integer")
  /\ variable2aseg_gdf_format (float64_array [S754_nan; S754_nan]) (Some 2)
     = Raise (ValueError "cannot convert float NaN to integer").
Proof.
  split.
  - refine (proj1 (variable2aseg_gdf_format_not_finite
                     (float64_array [f1_23; S754_infinity true; f100]) None
                     _ eq_refl _ eq_refl) _).
    + discriminate.
    + exists true. cbn. auto.
  - refine (proj2 (variable2aseg_gdf_format_not_finite
                     (float64_array [S754_nan; S754_nan]) (Some 2)
                     _ eq_refl _ eq_refl) _ _).
    + discriminate.
    + discriminate.
    + intros x [<-|[<-|[]]]; reflexivity.
Defined.

(** ** The command line of [main] *)

(** X16. [main] checks for four entries in [sys.argv] and reads five:
    fewer than four raise AssertionError, exactly four pass the check and
    raise IndexError at the password, and with five or more the path, user,
    database and password are the entries 1 to 4. *)
Theorem main_arguments_outcomes (argv : list string) :
  ((List.length argv < 4)%nat ->
   main_arguments argv = Raise (AssertionError "...."))
  /\ (List.length argv = 4%nat ->
      main_arguments argv = Raise (IndexError "list index out of range"))
  /\ ((5 <= List.length argv)%nat ->
      exists args,
        main_arguments argv = Ok args
        /\ nth_error argv 1 = Some (nc_out_path args)
        /\ nth_error argv 2 = Some (u_id args)
        /\ nth_error argv 3 = Some (oracle_database args)
        /\ nth_error argv 4 = Some (pw args)).
Proof.
  unfold main_arguments.
  destruct argv as [|a0 [|a1 [|a2 [|a3 [|a4 rest]]]]]; cbn [List.length];
    repeat split; intros H; try lia; try reflexivity.
  eexists. repeat split.
Qed.

Lemma main_arguments_outcomes_witness :
  main_arguments ["grav2netcdf"; "out/"; "user"; "db"]%list
  = Raise (IndexError "list index out of range").
Proof.
  exact (proj1 (proj2 (main_arguments_outcomes
                         ["grav2netcdf"; "out/"; "user"; "db"]%list))
           eq_refl).
Defined.

(** ** Survey ids *)

Lemma survey_id_at_digit (a : ascii) (s : string) :
  is_digit a = true ->
  re_match (Group 0 (Plus (Class is_digit))) (String a s)
  = Some [(0%nat, String a (fst (span_chars is_digit s)))]%list.
Proof.
  intros Ha. unfold re_match. rewrite run_group, run_plus_class, Ha.
  erewrite greedy_first; [|reflexivity]. do 3 f_equal.
  rewrite <- (span_chars_append is_digit s) at 1.
  change (String a (?x ++ ?y)) with (String a x ++ y).
  apply consumed_append.
Qed.

Lemma survey_id_not_at (s : string) :
  head_in is_digit s = false ->
  re_match (Group 0 (Plus (Class is_digit))) s = None.
Proof.
  intros Hs. unfold re_match. rewrite run_group, run_plus_class.
  destruct s as [|a s]; [reflexivity|]. cbn [head_in] in Hs. now rewrite Hs.
Qed.

Lemma tidy_digit_free (s : string) :
  digit_free s = true ->
  tidy_survey_id s
  = Raise (AttributeError "'NoneType' object has no attribute 'group'").
Proof.
  unfold tidy_survey_id, digit_free.
  induction s as [|c s IH]; [reflexivity|]. cbn [all_chars]. intros H.
  apply andb_prop in H as [Hc Hs].
  cbn [re_search]. rewrite survey_id_not_at
    by (cbn [head_in]; now destruct (is_digit c)).
  now apply IH.
Qed.

Lemma tidy_first_run (pre digits rest : string) :
  digit_free pre = true ->
  digits <> "" ->
  all_chars is_digit digits = true ->
  head_in is_digit rest = false ->
  tidy_survey_id (pre ++ digits ++ rest) = Ok digits.
Proof.
  intros Hpre Hne Hdigits Hrest. unfold tidy_survey_id.
  induction pre as [|c pre IH].
  - destruct digits as [|d digits]; [contradiction|].
    cbn [all_chars] in Hdigits. apply andb_prop in Hdigits as [Hd Hdigits].
    cbn [append re_search]. rewrite survey_id_at_digit by assumption.
    rewrite span_chars_run by assumption. reflexivity.
  - unfold digit_free in Hpre. cbn [all_chars] in Hpre.
    apply andb_prop in Hpre as [Hc Hpre].
    cbn [append re_search]. rewrite survey_id_not_at
      by (cbn [head_in]; now destruct (is_digit c)).
    now apply IH.
Qed.

(** X17. The tidied survey id is the first run of digits of the text, as
    long as it goes: what stands before it and after it is dropped. A text
    with no digit raises AttributeError. *)
Theorem tidy_survey_id_first_digits (pre digits rest : string) :
  digit_free pre = true ->
  (digits <> "" ->
   all_chars is_digit digits = true ->
   head_in is_digit rest = false ->
   tidy_survey_id (pre ++ digits ++ rest) = Ok digits)
  /\ tidy_survey_id pre
     = Raise (AttributeError "'NoneType' object has no attribute 'group'").
Proof.
  intros Hpre. split.
  - now apply tidy_first_run.
  - now apply tidy_digit_free.
Qed.

Lemma tidy_survey_id_first_digits_witness :
  tidy_survey_id ("GA" ++ "201780" ++ "-B12")
  = Ok "201780"
  /\ tidy_survey_id "GA"
     = Raise (AttributeError "'NoneType' object has no attribute 'group'").
Proof.
  destruct (tidy_survey_id_first_digits "GA" "201780" "-B12" eq_refl)
    as [Hfirst Hnone].
  split; [|exact Hnone].
  apply Hfirst; [discriminate | reflexivity | reflexivity].
Defined.

(** A text with a digit has a first run of digits. *)
Lemma first_run_exists (s : string) :
  digit_free s = false ->
  exists pre digits rest,
    s = pre ++ digits ++ rest
    /\ digit_free pre = true
    /\ digits <> ""
    /\ all_chars is_digit digits = true
    /\ head_in is_digit rest = false.
Proof.
  unfold digit_free. induction s as [|c s IH]; [discriminate|].
  cbn [all_chars]. destruct (is_digit c) eqn:Ec; cbn [negb andb].
  - intros _.
    exists "", (String c (fst (span_chars is_digit s))),
      (snd (span_chars is_digit s)).
    cbn [append]. rewrite span_chars_append. cbn [all_chars].
    rewrite Ec, span_chars_all, span_chars_stops. now repeat split.
  - intros H.
    destruct (IH H) as (pre & digits & rest & -> & Hpre & Hne & Hd & Hr).
    exists (String c pre), digits, rest. cbn [append all_chars].
    rewrite Ec, Hpre. now repeat split.
Qed.

(** X18. The list of survey ids is all or nothing: when every row holds a
    digit each row gives its tidied id, in order; a single row without a
    digit raises AttributeError and no list is made. *)
Theorem tidy_survey_ids_outcome (survey_rows : list string) :
  (forallb (fun row => negb (digit_free row)) survey_rows = true ->
   exists ids,
     tidy_survey_ids survey_rows = Ok ids
     /\ Forall2 (fun row id => tidy_survey_id row = Ok id) survey_rows ids)
  /\ (forallb (fun row => negb (digit_free row)) survey_rows = false ->
      tidy_survey_ids survey_rows
      = Raise (AttributeError "'NoneType' object has no attribute 'group'")).
Proof.
  unfold tidy_survey_ids.
  induction survey_rows as [|row rows [IHok IHbad]]; cbn [forallb map_result].
  - split; [|discriminate]. intros _. exists []%list. now split.
  - destruct (digit_free row) eqn:Erow; cbn [negb andb].
    + split; [discriminate|]. intros _. now rewrite tidy_digit_free.
    + destruct (first_run_exists row Erow)
        as (pre & digits & rest & -> & Hpre & Hne & Hd & Hr).
      rewrite (tidy_first_run pre digits rest Hpre Hne Hd Hr).
      cbn [bind]. split.
      * intros H. destruct (IHok H) as (ids & -> & Hids).
        exists (digits :: ids)%list. split; [reflexivity|].
        constructor; [|assumption].
        now apply tidy_first_run.
      * intros H. now rewrite (IHbad H).
Qed.

Lemma tidy_survey_ids_outcome_witness :
  tidy_survey_ids ["201780"; "none"; "199901"]%list
  = Raise (AttributeError "'NoneType' object has no attribute 'group'").
Proof.
  exact (proj2 (tidy_survey_ids_outcome ["201780"; "none"; "199901"]%list)
           eq_refl).
Defined.

(** ** The case of an ASCII specifier *)

Lemma upper_char_facts (c : ascii) :
  is_digit (upper_char c) = is_digit c
  /\ is_word (upper_char c) = is_word c
  /\ is_dot (upper_char c) = is_dot c
  /\ (is_digit c = true -> upper_char c = c)
  /\ (is_ascii c = true -> upper_code (upper_char c) = upper_code c).
Proof.
  destruct c as [[] [] [] [] [] [] [] []]; vm_compute; repeat split;
    congruence.
Qed.

(** On ASCII text [str.upper] works character by character. *)
Lemma upper_ascii (s : string) :
  all_chars is_ascii s = true -> upper s = Ok (ascii_upper s).
Proof.
  induction s as [|c s IH]; [reflexivity|]. cbn [all_chars upper ascii_upper].
  intros H. apply andb_prop in H as [Hc Hs].
  now rewrite (upper_code_ascii c Hc), (IH Hs).
Qed.

Lemma ascii_upper_digits (s : string) :
  all_chars is_digit s = true -> ascii_upper s = s.
Proof.
  induction s as [|c s IH]; [reflexivity|]. cbn [all_chars ascii_upper].
  intros H. apply andb_prop in H as [Hc Hs].
  rewrite IH by assumption.
  now rewrite (proj1 (proj2 (proj2 (proj2 (upper_char_facts c)))) Hc).
Qed.

Lemma span_chars_upper (p : ascii -> bool) (s : string) :
  (forall c, p (upper_char c) = p c) ->
  span_chars p (ascii_upper s)
  = (ascii_upper (fst (span_chars p s)), ascii_upper (snd (span_chars p s))).
Proof.
  intros Hp. induction s as [|c s IH]; [reflexivity|].
  cbn [ascii_upper span_chars]. rewrite Hp. destruct (p c); [|reflexivity].
  rewrite IH. now destruct (span_chars p s).
Qed.

Lemma code_ok_upper (t : string) : code_ok (ascii_upper t) = code_ok t.
Proof.
  destruct t as [|c [|d t]]; try reflexivity. cbn [ascii_upper code_ok].
  destruct (upper_char_facts c) as (_ & -> & _).
  now destruct (upper_char_facts d) as (-> & _).
Qed.

Lemma best_upper (ok : string -> bool) (s : string) :
  (forall t, ok (ascii_upper t) = ok t) ->
  best ok (ascii_upper s)
  = option_map (fun x => (ascii_upper (fst x), ascii_upper (snd x)))
      (best ok s).
Proof.
  intros Hok. induction s as [|a s IH]; [reflexivity|].
  cbn [ascii_upper best]. destruct (upper_char_facts a) as (-> & _).
  destruct (is_digit a); [|reflexivity].
  rewrite IH, Hok. destruct (best ok s) as [[w s1]|]; cbn [option_map fst snd];
    [reflexivity|].
  now destruct (ok s).
Qed.

Lemma best0_upper (ok : string -> bool) (s : string) :
  (forall t, ok (ascii_upper t) = ok t) ->
  best0 ok (ascii_upper s)
  = option_map (fun x => (ascii_upper (fst x), ascii_upper (snd x)))
      (best0 ok s).
Proof.
  intros Hok. unfold best0. rewrite best_upper, Hok by assumption.
  destruct (best ok s) as [[w s1]|]; cbn [option_map]; [reflexivity|].
  now destruct (ok s).
Qed.

Lemma fields_direct_upper (w s1 : string) :
  all_chars is_digit w = true -> code_ok s1 = true ->
  head_in is_ascii s1 = true ->
  fields_direct (ascii_upper w) (ascii_upper s1) = fields_direct w s1.
Proof.
  intros Hw Hs1 Ha. rewrite (ascii_upper_digits w Hw).
  destruct s1 as [|c [|d s2]]; try discriminate.
  cbn [code_ok] in Hs1. apply andb_prop in Hs1 as [_ Hd].
  cbn [head_in] in Ha.
  cbn [ascii_upper fields_direct].
  destruct (upper_char_facts c) as (_ & _ & _ & _ & Hcode).
  destruct (upper_char_facts d) as (_ & _ & _ & Hdd & _).
  rewrite (Hcode Ha), (Hdd Hd).
  rewrite (span_chars_upper is_digit s2)
    by (intros x; now destruct (upper_char_facts x) as (-> & _)).
  cbn [fst snd].
  rewrite (span_chars_upper is_dot)
    by (intros x; now destruct (upper_char_facts x) as (_ & _ & -> & _)).
  cbn [fst snd].
  rewrite (span_chars_upper is_digit (snd (span_chars is_dot _)))
    by (intros x; now destruct (upper_char_facts x) as (-> & _)).
  cbn [fst snd].
  now rewrite !ascii_upper_digits by apply span_chars_all.
Qed.

(** X19. Decoding ignores the case of an ASCII specifier: put in upper
    case, a specifier that decodes gives the same four fields, and one that
    raises still raises. (Beyond ASCII the upper case can change what is
    matched: that of the sharp s is [SS].) *)
Theorem decode_ignores_case (s : string) :
  all_chars is_ascii s = true ->
  exists u,
    upper s = Ok u
    /\ match decode_aseg_gdf_format s with
       | Ok fields => decode_aseg_gdf_format u = Ok fields
       | Raise _ => is_ok (decode_aseg_gdf_format u) = false
       end.
Proof.
  intros Hs. exists (ascii_upper s). split; [now apply upper_ascii|].
  destruct s as [|c s]; [reflexivity|].
  rewrite (decode_direct (String c s)) by discriminate.
  rewrite (decode_direct (ascii_upper (String c s))) by discriminate.
  rewrite (best0_upper code_ok) by apply code_ok_upper.
  destruct (best0 code_ok (String c s)) as [[w s1]|] eqn:E;
    cbn [option_map fst snd is_ok]; [|reflexivity].
  destruct (best0_sound _ _ _ _ E) as (Hcut & Hw & Hok).
  rewrite Hcut, all_chars_append in Hs. apply andb_prop in Hs as [_ Hs1].
  rewrite fields_direct_upper; try assumption.
  - now destruct (fields_direct w s1).
  - destruct s1 as [|x s1]; [discriminate|]. cbn [all_chars] in Hs1.
    now apply andb_prop in Hs1 as [Hx _].
Qed.

Lemma decode_ignores_case_witness :
  exists u,
    upper "3f10.4" = Ok u
    /\ decode_aseg_gdf_format u = Ok (PyStr "3", "F", 10, 4).
Proof. exact (decode_ignores_case "3f10.4" eq_refl). Defined.

(** ** The written specifier, read by aseg_gdf_format2dtype *)

(** Where the type code of a decoded specifier stands in the text. *)
Lemma decode_code_position (s : string) (cols : pyval) (code : string)
  (i f : Z) :
  decode_aseg_gdf_format s = Ok (cols, code, i, f) ->
  exists w c rest,
    s = w ++ String c rest
    /\ all_chars is_digit w = true
    /\ upper_code c = Ok code.
Proof.
  intros Hdec.
  destruct (String.eqb_spec s "") as [->|Hs]; [discriminate|].
  rewrite (decode_direct s Hs) in Hdec.
  destruct (best0 code_ok s) as [[w s1]|] eqn:E; [|discriminate].
  apply best0_sound in E as (-> & Hw & Hok).
  apply code_ok_shape in Hok as (c & d & s2 & -> & Hc & Hd).
  cbn [fields_direct] in Hdec.
  destruct (upper_code c) as [code'|e] eqn:Eu; [|discriminate].
  cbn [bind] in Hdec. apply Ok_inj in Hdec.
  injection Hdec as _ <- _ _.
  now exists w, c, (String d s2).
Qed.

(** Two ways to cut one text after leading digits: the character after the
    shorter run is a digit or the one after the longer run. *)
Lemma after_digits (w pre rest t : string) (c l : ascii) :
  w ++ String c rest = pre ++ String l t ->
  all_chars is_digit w = true ->
  all_chars is_digit pre = true ->
  is_digit l = false ->
  is_digit c = true \/ c = l.
Proof.
  revert pre. induction w as [|a w IH]; intros pre H Hw Hpre Hl.
  - destruct pre as [|b pre]; cbn [append] in H; injection H as -> _;
      [now right|].
    cbn [all_chars] in Hpre. apply andb_prop in Hpre as [Hb _]. now left.
  - cbn [all_chars] in Hw. apply andb_prop in Hw as [Ha Hw].
    destruct pre as [|b pre]; cbn [append] in H; injection H as -> H.
    + congruence.
    + cbn [all_chars] in Hpre. apply andb_prop in Hpre as [_ Hpre].
      now apply (IH pre).
Qed.

Lemma aseg_gdf_format2dtype_needs_A (s : string)
  (v : dtype_value * pyval * Z * Z) :
  aseg_gdf_format2dtype s = Ok v ->
  exists cols width f, decode_aseg_gdf_format s = Ok (cols, "A", width, f).
Proof.
  unfold aseg_gdf_format2dtype. intros H. bind_inv H as decoded Hdecoded.
  destruct decoded as [[[cols code] i] f]. cbv zeta in H.
  bind_inv H as d1 Hd1. clear Hd1. bind_inv H as d2 Hd2.
  destruct (String.eqb_spec code "A") as [HA|HnA]; [|discriminate].
  rewrite HA in Hdecoded. eauto.
Qed.

Lemma column_prefix_digits (columns : Z) :
  all_chars is_digit (column_prefix columns) = true.
Proof.
  unfold column_prefix.
  destruct (Z.gtb_spec columns 1) as [Hc|Hc]; [|reflexivity].
  now destruct (str_of_Z_nonneg columns) as (Hd & _); [lia|].
Qed.

(** X20. What [variable2aseg_gdf_format] writes, [aseg_gdf_format2dtype]
    never reads back: on the specifier of any returned tuple it raises. *)
Theorem written_format_not_read_back (a : ndarray)
  (decimal_places : option Z) (r : column_format) :
  variable2aseg_gdf_format a decimal_places = Ok r ->
  is_ok (aseg_gdf_format2dtype (aseg_gdf_format r)) = false.
Proof.
  intros H.
  apply variable2aseg_gdf_format_tuple in H as (code & _ & _ & _ & Hcases).
  cbv zeta in Hcases.
  assert (Hform : exists l t,
             aseg_gdf_format r = column_prefix (columns r) ++ String l t
             /\ is_digit l = false
             /\ upper_code l <> Ok "A").
  { destruct Hcases as [(-> & _ & -> & _)|([->| ->] & -> & _)];
      eexists _, _; (split; [reflexivity|]); split;
      (reflexivity || discriminate). }
  destruct Hform as (l & t & Hfmt & Hl & Hup).
  destruct (aseg_gdf_format2dtype (aseg_gdf_format r)) as [v|e] eqn:E;
    [|reflexivity].
  exfalso.
  apply aseg_gdf_format2dtype_needs_A in E as (cols & width & f & Hdec).
  apply decode_code_position in Hdec as (w & c & rest & Hs & Hw & Hcode).
  rewrite Hfmt in Hs. symmetry in Hs.
  destruct (after_digits _ _ _ _ _ _ Hs Hw (column_prefix_digits _) Hl)
    as [Hd| ->].
  - destruct (upper_char_facts c) as (_ & _ & _ & Hsame & _).
    rewrite (upper_code_ascii c (digit_is_ascii c Hd)), (Hsame Hd) in Hcode.
    injection Hcode as ->. discriminate Hd.
  - now apply Hup.
Qed.

Lemma written_format_not_read_back_witness :
  is_ok (aseg_gdf_format2dtype "D3.19") = false.
Proof.
  exact (written_format_not_read_back (float64_array [f1_23; fm4_5; f100])
           None _ eq_refl).
Defined.

(** ** Masked arrays *)

Lemma reduce_in_masked (lists : list (list string)) (shape : list Z)
  (d : string) (v : values) (declared : option string)
  (mask mask' : list bool) (fill : scalar) (cur : string) (st st' : locals) :
  precision_digits st = precision_digits st' ->
  reduce_in lists
    {| arr_shape := shape; arr_dtype := d; arr_data := v;
       arr_masked := Some {| ma_mask := mask; ma_fill_value := fill |};
       arr_aseg_gdf_format := declared |} cur st
  = reduce_in lists
      {| arr_shape := shape; arr_dtype := d; arr_data := v;
         arr_masked := Some {| ma_mask := mask'; ma_fill_value := fill |};
         arr_aseg_gdf_format := declared |} cur st'.
Proof.
  revert st st'. induction lists as [|l lists IH]; intros st st' Hp;
    [reflexivity|].
  cbn [reduce_in arr_masked arr_shape arr_dtype arr_data ma_fill_value
       fill_value].
  rewrite Hp.
  destruct (list_index l cur) as [index|[]]; try reflexivity; [|now apply IH].
  destruct (array_eq (plain_array shape d v) fill) as [m|e].
  - destruct (try_smaller _ m _ _) as [st2 [[r|]|[]]]; try reflexivity;
      now apply IH.
  - destruct e; try reflexivity. now apply IH.
Qed.

(** X21. Of a masked array only the fill value is used: the fill value
    handed to the function and the mask of the array change nothing. *)
Theorem masked_array_mask_unused (shape : list Z) (d : string) (v : values)
  (declared : option string) (mask mask' : list bool) (fill : scalar)
  (current_dtype : string) (digits : Z) (given given' : option scalar) :
  fix_field_precision
    {| arr_shape := shape; arr_dtype := d; arr_data := v;
       arr_masked := Some {| ma_mask := mask; ma_fill_value := fill |};
       arr_aseg_gdf_format := declared |} current_dtype digits given
  = fix_field_precision
      {| arr_shape := shape; arr_dtype := d; arr_data := v;
         arr_masked := Some {| ma_mask := mask'; ma_fill_value := fill |};
         arr_aseg_gdf_format := declared |} current_dtype digits given'.
Proof. unfold fix_field_precision. now apply reduce_in_masked. Qed.
